(** * Environment lifecycle controller of the cloudtest harness

    A shallow embedding of
    [misc/python/materialize/cloudtest/util/environment.py]:
    [create_environment_assignment], [wait_for_environmentd] and
    [delete_environment_assignment], together with the Python values they
    compute on and the collaborators they call.

    The controller is sequential Python that talks to three external systems
    (the region API over HTTP, the cluster resource store through kubectl, the
    SQL endpoint through a connectivity probe).  It is embedded as a state and
    exception monad over a store that holds the configuration object, the
    state of the external systems and the log of every call made so far. *)

From Stdlib Require Import ZArith String Ascii List Lia.
From Stdlib Require Import Floats.PrimFloat.
From stdpp Require Import base option gmap strings list.

Set Warnings "-register-all".

Local Open Scope string_scope.
Local Open Scope Z_scope.
Local Open Scope list_scope.

(** ** Python values *)

(** The exception classes that occur.  [AssertionError] is what a failed
    [assert] raises (the spec's [NotReadyYet] inside the readiness probe and
    its [AssertionViolation] after a delete); [HTTPError] is
    [requests.exceptions.HTTPError] (the spec's [HttpError]);
    [JSONDecodeError] is what [Response.json()] raises on a body that is not
    JSON; [ResourceNotFound] and [RetryExhausted] are the spec's names.
    Every other class a collaborator may raise is [OtherError] with its
    name. *)
Inductive exn : Type :=
  | AssertionError
  | AttributeError
  | KeyError
  | TypeError
  | ValueError
  | JSONDecodeError
  | HTTPError
  | ResourceNotFound
  | RetryExhausted
  | OtherError (name : string).

#[global] Instance exn_eq_dec : EqDecision exn.
Proof. solve_decision. Defined.

(** A Python evaluation either returns a value or raises. *)
Inductive result (A : Type) : Type :=
  | Ok (a : A)
  | Raise (e : exn).
Arguments Ok {A} a.
Arguments Raise {A} e.

(** What [json.loads] produces: [None], [bool], [int], [float], [str], [list]
    and [dict] with [str] keys.  A [str] is modelled by a [string] with one
    character per code point (code points below 256). *)
Inductive json : Type :=
  | JNull
  | JBool (b : bool)
  | JInt (n : Z)
  | JFloat (f : PrimFloat.float)
  | JStr (s : string)
  | JArr (l : list json)
  | JObj (m : gmap string json).

(** Python's truth value testing, as [assert x] and [if x] apply it. *)
Definition truthy (v : json) : bool :=
  match v with
  | JNull => false
  | JBool b => b
  | JInt n => negb (n =? 0)
  | JFloat f => negb (PrimFloat.eqb f PrimFloat.zero)
  | JStr s => negb (String.eqb s "")
  | JArr l => match l with [] => false | _ :: _ => true end
  | JObj m => negb (bool_decide (m = ∅))
  end.

(** [d.get(key)] of a [dict]: the value, or [None] when the key is missing. *)
Definition dict_get (m : gmap string json) (key : string) : json :=
  default JNull (m !! key).

(** [v.get(key)]: only a [dict] has the method. *)
Definition py_get (v : json) (key : string) : result json :=
  match v with
  | JObj m => Ok (dict_get m key)
  | _ => Raise AttributeError
  end.

(** [v[key]] with a [str] key: a [dict] looks the key up and raises [KeyError]
    when it is missing; [list] and [str] refuse a [str] index and the other
    values are not subscriptable, both with [TypeError]. *)
Definition py_getitem (v : json) (key : string) : result json :=
  match v with
  | JObj m => match m !! key with
              | Some x => Ok x
              | None => Raise KeyError
              end
  | _ => Raise TypeError
  end.

(** [x is None]. *)
Definition is_none {A : Type} (x : option A) : bool :=
  match x with
  | None => true
  | Some _ => false
  end.

(** [assert b]. *)
Definition py_assert (b : bool) : result unit :=
  if b then Ok tt else Raise AssertionError.

(** [s.split(sep)] for a separator of one character: the pieces between
    the occurrences of [sep], empty pieces included. *)
Fixpoint str_split (sep : ascii) (s : string) : list string :=
  match s with
  | EmptyString => [EmptyString]
  | String c rest =>
      if Ascii.eqb c sep then EmptyString :: str_split sep rest
      else match str_split sep rest with
           | piece :: pieces => String c piece :: pieces
           | [] => [String c EmptyString]
           end
  end.

(** [v.split(":")]: only a [str] has the method; the pieces are [str]. *)
Definition py_split (v : json) (sep : ascii) : result (list string) :=
  match v with
  | JStr s => Ok (str_split sep s)
  | _ => Raise AttributeError
  end.

(** [(a, b) = l]: unpacking into two targets needs exactly two items. *)
Definition unpack2 {A : Type} (l : list A) : result (A * A) :=
  match l with
  | [a; b] => Ok (a, b)
  | _ => Raise ValueError
  end.

(** *** [int(str)]

    CPython's conversion of a [str] to [int] in base 10: white space is
    stripped at both ends, one sign may come first, then digits with single
    underscores between them; anything else is a [ValueError].  Since 3.11
    (and the security releases of 3.7 to 3.10) a text of more than
    [sys.get_int_max_str_digits()] digits is refused as well; the limit is a
    setting of the interpreter ([0] switches it off) and a parameter here. *)

(** The characters [int] strips: tab to carriage return, space, and among the
    code points from 128 to 255 NEXT LINE and NO-BREAK SPACE. *)
Definition is_int_space (c : ascii) : bool :=
  let n := nat_of_ascii c in
  ((9 <=? n)%nat && (n <=? 13)%nat) || (n =? 32)%nat || (n =? 133)%nat || (n =? 160)%nat.

Definition is_digit (c : ascii) : bool :=
  let n := nat_of_ascii c in (48 <=? n)%nat && (n <=? 57)%nat.

Definition digit_value (c : ascii) : Z := Z.of_nat (nat_of_ascii c) - 48.

Fixpoint skip_spaces (s : string) : string :=
  match s with
  | String c rest => if is_int_space c then skip_spaces rest else s
  | EmptyString => EmptyString
  end.

Inductive last_seen : Type := AtStart | AfterDigit | AfterUnderscore.

(** The scan of the digits: value so far, digits counted, and the text left
    at the first character that is neither a digit nor an underscore.  An
    underscore is accepted only directly after a digit, and the scan must end
    directly after a digit. *)
Fixpoint scan_digits (prev : last_seen) (acc : Z) (digits : nat) (s : string)
  : option (Z * nat * string) :=
  match s with
  | String c rest =>
      if is_digit c then scan_digits AfterDigit (10 * acc + digit_value c) (S digits) rest
      else if Ascii.eqb c "_" then
        match prev with
        | AfterDigit => scan_digits AfterUnderscore acc digits rest
        | _ => None
        end
      else match prev with
           | AfterDigit => Some (acc, digits, s)
           | _ => None
           end
  | EmptyString =>
      match prev with
      | AfterDigit => Some (acc, digits, EmptyString)
      | _ => None
      end
  end.

(** The digit count above which the limit is looked at. *)
Definition max_str_digits_threshold : nat := 640.

Definition too_many_digits (max_str_digits digits : nat) : bool :=
  (max_str_digits_threshold <? digits)%nat
  && (0 <? max_str_digits)%nat && (max_str_digits <? digits)%nat.

Definition str_to_int (max_str_digits : nat) (s : string) : option Z :=
  let s1 := skip_spaces s in
  let '(negative, s2) :=
    match s1 with
    | String "+" rest => (false, rest)
    | String "-" rest => (true, rest)
    | _ => (false, s1)
    end in
  match scan_digits AtStart 0 0%nat s2 with
  | Some (n, digits, rest) =>
      match skip_spaces rest with
      | EmptyString =>
          if too_many_digits max_str_digits digits then None
          else Some (if negative then - n else n)
      | String _ _ => None
      end
  | None => None
  end.

(** [int(s)] of a [str]. *)
Definition py_int (max_str_digits : nat) (s : string) : result Z :=
  match str_to_int max_str_digits s with
  | Some n => Ok n
  | None => Raise ValueError
  end.

(** ** Sequential Python with a store: the monad *)

(** A computation reads and writes a store [St] and returns or raises; the
    store survives a raise, as Python's heap does. *)
Definition M (St A : Type) : Type := St → result A * St.

#[global] Instance M_ret {St : Type} : MRet (M St) := λ A a s, (Ok a, s).

#[global] Instance M_bind {St : Type} : MBind (M St) := λ A B f m s,
  match m s with
  | (Ok a, s') => f a s'
  | (Raise e, s') => (Raise e, s')
  end.

(** A step that touches no store: the evaluation of an expression. *)
Definition lift {St A : Type} (r : result A) : M St A := λ s, (r, s).

(** Reading the store. *)
Definition gets {St A : Type} (f : St → A) : M St A := λ s, (Ok (f s), s).

(** ** The retry engine *)

(** Modelled from the spec: [retry(operation, budget, tolerated_failure_kinds)]
    of [cloudtest/util/common.py], which is not among the sources.  The
    operation is invoked again and again: a success is returned at once, a
    failure of a tolerated kind is followed by the next attempt until the
    budget is used up, a failure of any other kind propagates at once, and a
    used-up budget signals [RetryExhausted].  A failure kind is tolerated
    when it is in the list.  The wait between two attempts is time passing
    and leaves no mark in the store. *)
Fixpoint retry {St A : Type} (operation : M St A) (budget : nat) (tolerated : list exn)
  : M St A :=
  match budget with
  | O => lift (Raise RetryExhausted)
  | S remaining => λ s,
      match operation s with
      | (Ok a, s') => (Ok a, s')
      | (Raise e, s') =>
          if bool_decide (e ∈ tolerated) then retry operation remaining tolerated s'
          else (Raise e, s')
      end
  end.

(** An operation that counts its own invocations next to its store. *)
Definition counted {St A : Type} (operation : M St A) : M (St * nat) A :=
  λ '(s, n), let '(r, s') := operation s in (r, (s', S n)).

(** The store after [k] invocations of an operation in a row. *)
Fixpoint after {St A : Type} (operation : M St A) (k : nat) (s : St) : St :=
  match k with
  | O => s
  | S k' => after operation k' (operation s).2
  end.

(** ** The configuration and the collaborators *)

(** [EnvironmentConfig], of which the controller reads
    [config.auth.organization_id],
    [config.controllers.region_api_server.configured_base_url()],
    [config.environment_context] and [config.system_context]. *)
Record EnvironmentConfig : Type := mkConfig {
  organization_id : string;
  region_api_base_url : string;
  environment_context : string;
  system_context : string;
}.

Inductive http_method : Type := GET | PATCH | DELETE.

(** A call of [get], [patch] or [delete] of [cloudtest/util/http.py] as the
    controller makes it: base URL, path, the JSON body of a PATCH, and the
    [timeout] keyword when it is passed. *)
Record http_request : Type := mkRequest {
  req_method : http_method;
  req_base_url : string;
  req_path : string;
  req_json : option (gmap string json);
  req_timeout : option Z;
}.

(** [requests.Response]: the status, and the body as [json()] decodes it
    ([None] for a body that is not JSON). *)
Record Response : Type := mkResponse {
  status_code : Z;
  body : option json;
}.

(** What the region API client meets: a response, no response at all, or a
    failure of another kind inside the client layer. *)
Inductive http_answer : Type :=
  | Responded (r : Response)
  | TransportFailure
  | Crashed (e : exn).

(** A query of the cluster resource store: [kubectl get] of one resource. *)
Record kubectl_query : Type := mkQuery {
  k_context : string;
  k_namespace : option string;
  k_resource_type : string;
  k_resource_name : string;
}.

Inductive kubectl_answer : Type :=
  | Found (resource : json)
  | NotFound
  | KubectlFailed (e : exn).

Inductive connect_answer : Type :=
  | Connected
  | ConnectFailed (e : exn).

(** The log entry of one call to a collaborator, with its answer. *)
Inductive event : Type :=
  | EHttp (req : http_request) (ans : http_answer)
  | EKubectl (q : kubectl_query) (ans : kubectl_answer)
  | EConnect (host : string) (port : Z) (timeout : Z) (ans : connect_answer).

(** The external systems, with a state [W] of their own.  The region API
    client is handed the configuration object itself and so is able to write
    to it; kubectl and the prober are handed strings and numbers only. *)
Record Collaborators (W : Type) : Type := mkCollaborators {
  region_api : http_request → EnvironmentConfig → W → http_answer * EnvironmentConfig * W;
  resource_store : kubectl_query → W → kubectl_answer * W;
  prober : string → Z → Z → W → connect_answer * W;
}.
Arguments region_api {W} _ _ _ _.
Arguments resource_store {W} _ _ _.
Arguments prober {W} _ _ _ _ _.

(** The store: the configuration object the caller passed in, the external
    systems, and the log of the calls made. *)
Record state (W : Type) : Type := mkState {
  st_config : EnvironmentConfig;
  st_world : W;
  st_trace : list event;
}.
Arguments mkState {W} _ _ _.
Arguments st_config {W} _.
Arguments st_world {W} _.
Arguments st_trace {W} _.

Definition is_2xx (status : Z) : bool := (200 <=? status) && (status <? 300).

Section Controller.
Context {W : Type} (env : Collaborators W).

(** [sys.get_int_max_str_digits()] of the interpreter that runs the file. *)
Variable max_str_digits : nat.

(** *** The collaborators' entry points *)

(** One request goes out and is logged with its answer.  The client is
    handed the configuration object of the store (the [config] argument of
    [get], [patch] and [delete] in the source) and hands it back as it has
    left it. *)
Definition send (req : http_request) : M (state W) http_answer := λ s,
  let '(ans, config', w') := region_api env req (st_config s) (st_world s) in
  (Ok ans, mkState config' w' (st_trace s ++ [EHttp req ans])).

(** Modelled from the spec: the region API client of
    [cloudtest/util/http.py], which is not among the sources.  A response
    that is not 2xx and a transport failure raise [HTTPError]; a 2xx response
    is returned; any other failure of the client layer propagates. *)
Definition http_call (req : http_request) : M (state W) Response :=
  ans ← send req;
  match ans with
  | Responded r => if is_2xx (status_code r) then mret r else lift (Raise HTTPError)
  | TransportFailure => lift (Raise HTTPError)
  | Crashed e => lift (Raise e)
  end.

(** Modelled from the spec: [get(config, base_url, path)]. *)
Definition get (base_url path : string) : M (state W) Response :=
  http_call (mkRequest GET base_url path None None).

(** Modelled from the spec: [patch(config, base_url, path, json)]. *)
Definition patch (base_url path : string) (json : gmap string json)
  : M (state W) Response :=
  http_call (mkRequest PATCH base_url path (Some json) None).

(** Modelled from the spec: [delete(config, base_url, path, timeout=...)]. *)
Definition delete (base_url path : string) (timeout : Z) : M (state W) Response :=
  http_call (mkRequest DELETE base_url path None (Some timeout)).

(** [response.json()]. *)
Definition response_json (response : Response) : result json :=
  match body response with
  | Some payload => Ok payload
  | None => Raise JSONDecodeError
  end.

(** One query of the resource store goes out and is logged. *)
Definition query (q : kubectl_query) : M (state W) kubectl_answer := λ s,
  let '(ans, w') := resource_store env q (st_world s) in
  (Ok ans, mkState (st_config s) w' (st_trace s ++ [EKubectl q ans])).

(** Modelled from the spec: [kubectl_get] of [cloudtest/util/kubectl.py],
    which is not among the sources: the resource, or a failure; a missing
    resource is the failure [ResourceNotFound]. *)
Definition kubectl_get (context : string) (namespace : option string)
    (resource_type resource_name : string) : M (state W) json :=
  ans ← query (mkQuery context namespace resource_type resource_name);
  match ans with
  | Found resource => mret resource
  | NotFound => lift (Raise ResourceNotFound)
  | KubectlFailed e => lift (Raise e)
  end.

(** Modelled from the spec: [kubectl_get_or_none] of
    [cloudtest/util/kubectl.py], with "fetch or none" semantics: a missing
    resource is [None], not a failure. *)
Definition kubectl_get_or_none (context : string) (namespace : option string)
    (resource_type resource_name : string) : M (state W) (option json) :=
  ans ← query (mkQuery context namespace resource_type resource_name);
  match ans with
  | Found resource => mret (Some resource)
  | NotFound => mret None
  | KubectlFailed e => lift (Raise e)
  end.

(** Modelled from the spec: [kubectl_get_retry] of
    [cloudtest/util/kubectl.py]: [kubectl_get] under the retry engine with
    [max_attempts] as the budget, "not found yet" being the one tolerated
    failure. *)
Definition kubectl_get_retry (context : string) (namespace : option string)
    (resource_type resource_name : string) (max_attempts : nat) : M (state W) json :=
  retry (kubectl_get context namespace resource_type resource_name)
        max_attempts [ResourceNotFound].

(** Modelled from the spec: the connectivity prober [wait_for_connectable]
    of [cloudtest/util/controller.py], which is not among the sources:
    success, or a failure that propagates.  The call is logged with its
    answer. *)
Definition wait_for_connectable (address : string * Z) (timeout : Z)
  : M (state W) unit := λ s,
  let '(ans, w') := prober env address.1 address.2 timeout (st_world s) in
  let s' := mkState (st_config s) w'
              (st_trace s ++ [EConnect address.1 address.2 timeout ans]) in
  match ans with
  | Connected => (Ok tt, s')
  | ConnectFailed e => (Raise e, s')
  end.

(** *** [environment.py]

    Every [config.x] of the source is a read of the configuration object in
    the store at the point where Python evaluates it; the organization id is
    a [str], so the f-strings are concatenations. *)

Definition create_environment_assignment (image : option string)
  : M (state W) json :=
  environment_assignment ← gets (λ s, organization_id (st_config s) +:+ "-0");
  let environment := "environment-" +:+ environment_assignment in
  let json : gmap string json :=
    match image with
    | Some image => <["environmentdImageRef" := JStr image]> ∅
    | None => ∅
    end in
  base_url ← gets (region_api_base_url ∘ st_config);
  patch base_url "/api/region" json;;
  context ← gets (environment_context ∘ st_config);
  kubectl_get_retry context None "environment" environment 10;;
  context ← gets (system_context ∘ st_config);
  kubectl_get context None "environmentassignment" environment_assignment.

(** The closure [get_environment] of [wait_for_environmentd]. *)
Definition get_environment : M (state W) Response :=
  base_url ← gets (region_api_base_url ∘ st_config);
  response ← get base_url "/api/region";
  payload ← lift (response_json response);
  region_info ← lift (py_get payload "regionInfo");
  lift (py_assert (truthy region_info));;
  resolvable ← lift (py_get region_info "resolvable");
  lift (py_assert (truthy resolvable));;
  sql_address ← lift (py_get region_info "sqlAddress");
  lift (py_assert (truthy sql_address));;
  mret response.

Definition wait_for_environmentd : M (state W) json :=
  response ← retry get_environment 600 [AssertionError];
  environment_json ← lift (response_json response);
  region_info ← lift (py_getitem environment_json "regionInfo");
  pgwire_url ← lift (py_getitem region_info "sqlAddress");
  pieces ← lift (py_split pgwire_url ":");
  '(pgwire_host, pgwire_port) ← lift (unpack2 pieces);
  port ← lift (py_int max_str_digits pgwire_port);
  wait_for_connectable (pgwire_host, port) 300;;
  mret environment_json.

(** The closure [delete_environment] of [delete_environment_assignment]. *)
Definition delete_environment : M (state W) unit :=
  base_url ← gets (region_api_base_url ∘ st_config);
  delete base_url "/api/region" 305;;
  mret tt.

Definition delete_environment_assignment : M (state W) unit :=
  environment_assignment ← gets (λ s, organization_id (st_config s) +:+ "-0");
  let environment := "environment-" +:+ environment_assignment in
  retry delete_environment 10 [HTTPError];;
  context ← gets (environment_context ∘ st_config);
  namespace ← kubectl_get_or_none context None "namespace" environment;
  lift (py_assert (is_none namespace));;
  context ← gets (environment_context ∘ st_config);
  resource ← kubectl_get_or_none context None "environment" environment;
  lift (py_assert (is_none resource));;
  context ← gets (system_context ∘ st_config);
  resource ← kubectl_get_or_none context None "environmentassignment"
               environment_assignment;
  lift (py_assert (is_none resource)).

End Controller.

(** ** The vocabulary of the properties *)

Section Scenarios.
Context {W : Type} (env : Collaborators W).

(** The external systems answer the calls of the list, one after the
    other, with the answers logged there, starting in [w] and ending in
    [w'], and the region API client leaves the configuration as it is. *)
Inductive plays (config : EnvironmentConfig) : W → list event → W → Prop :=
  | plays_nil w : plays config w [] w
  | plays_http req ans w w1 t w2 :
      region_api env req config w = (ans, config, w1) →
      plays config w1 t w2 →
      plays config w (EHttp req ans :: t) w2
  | plays_kubectl q ans w w1 t w2 :
      resource_store env q w = (ans, w1) →
      plays config w1 t w2 →
      plays config w (EKubectl q ans :: t) w2
  | plays_connect host port timeout ans w w1 t w2 :
      prober env host port timeout w = (ans, w1) →
      plays config w1 t w2 →
      plays config w (EConnect host port timeout ans :: t) w2.

(** The region API client never writes to the configuration object. *)
Definition http_keeps_config : Prop :=
  ∀ req config w, (region_api env req config w).1.2 = config.

End Scenarios.

(** The three requests of the controller. *)
Definition probe_request (config : EnvironmentConfig) : http_request :=
  mkRequest GET (region_api_base_url config) "/api/region" None None.

Definition patch_request (config : EnvironmentConfig) (json : gmap string json)
  : http_request :=
  mkRequest PATCH (region_api_base_url config) "/api/region" (Some json) None.

Definition delete_request (config : EnvironmentConfig) : http_request :=
  mkRequest DELETE (region_api_base_url config) "/api/region" None (Some 305).

(** The log entry of a probe answered by response [r]. *)
Definition probe_event (config : EnvironmentConfig) (r : Response) : event :=
  EHttp (probe_request config) (Responded r).

(** The log entry of a DELETE with its answer. *)
Definition delete_event (config : EnvironmentConfig) (ans : http_answer) : event :=
  EHttp (delete_request config) ans.

(** The PATCH body in the spec's words: the field [environmentdImageRef]
    set to the image when one is supplied, the empty object otherwise. *)
Definition patch_body (image : option string) : gmap string json :=
  match image with
  | Some image => {[ "environmentdImageRef" := JStr image ]}
  | None => ∅
  end.

(** The naming convention in the spec's words: assignment id
    ["{organization_id}-0"], environment name
    ["environment-{assignment_id}"]. *)
Definition assignment_id (organization_id : string) : string :=
  organization_id +:+ "-0".

Definition environment_name (organization_id : string) : string :=
  "environment-" +:+ assignment_id organization_id.

(** The three resources of one organization in the resource store. *)
Definition namespace_query (config : EnvironmentConfig) : kubectl_query :=
  mkQuery (environment_context config) None "namespace"
          (environment_name (organization_id config)).

Definition environment_query (config : EnvironmentConfig) : kubectl_query :=
  mkQuery (environment_context config) None "environment"
          (environment_name (organization_id config)).

Definition assignment_query (config : EnvironmentConfig) : kubectl_query :=
  mkQuery (system_context config) None "environmentassignment"
          (assignment_id (organization_id config)).

(** A payload of the readiness probe that says "not ready", in the spec's
    words: [regionInfo] is missing (or empty, or any other falsy value), or
    its [resolvable] is not truthy, or its [sqlAddress] is missing (or
    falsy). *)
Definition not_ready (payload : json) : bool :=
  match payload with
  | JObj m =>
      match dict_get m "regionInfo" with
      | JObj region_info =>
          negb (truthy (JObj region_info))
          || negb (truthy (dict_get region_info "resolvable"))
          || negb (truthy (dict_get region_info "sqlAddress"))
      | region_info => negb (truthy region_info)
      end
  | _ => false
  end.

(** A payload that passes the three assertions, with its [sqlAddress]. *)
Definition ready_with (payload sql_address : json) : Prop :=
  ∃ m region_info,
    payload = JObj m ∧ m !! "regionInfo" = Some (JObj region_info) ∧
    truthy (dict_get region_info "resolvable") = true ∧
    region_info !! "sqlAddress" = Some sql_address ∧
    truthy sql_address = true.

(** A 2xx response that carries a "not ready" payload. *)
Definition not_ready_response (r : Response) : bool :=
  is_2xx (status_code r) &&
  match body r with
  | Some payload => not_ready payload
  | None => false
  end.

(** An HTTP-level failure of a request: a response that is not 2xx, no
    response, or an [HTTPError] of the client layer itself. *)
Definition http_level_failure (ans : http_answer) : bool :=
  match ans with
  | Responded r => negb (is_2xx (status_code r))
  | TransportFailure => true
  | Crashed e => bool_decide (e = HTTPError)
  end.

(** A character [int] has a use for: white space, a sign, a digit, an
    underscore. *)
Definition numeric_char (c : ascii) : bool :=
  is_int_space c || is_digit c
  || Ascii.eqb c "_" || Ascii.eqb c "+" || Ascii.eqb c "-".

(** The number of occurrences of a character in a text. *)
Fixpoint count_char (c : ascii) (s : string) : nat :=
  match s with
  | EmptyString => O
  | String c' rest => ((if Ascii.eqb c' c then 1 else 0) + count_char c rest)%nat
  end.

(** The place of the first occurrence of a character in a text, counted
    from 0. *)
Fixpoint place_of (c : ascii) (s : string) : option nat :=
  match s with
  | EmptyString => None
  | String c' rest => if Ascii.eqb c' c then Some O else S <$> place_of c rest
  end.

(** The digit a character writes: its place among the ten digits, and none
    for any other character. *)
Definition decimal_digit (c : ascii) : option Z :=
  Z.of_nat <$> place_of c "0123456789".

(** The number a text writes in decimal notation, each digit counted with
    the power of ten of its place: [6875] is 6 * 1000 + 875.  A text that is
    empty, or that holds anything but the ten digits, writes no number.
    This is the reading of a port number the properties are stated with; it
    is defined apart from [str_to_int], by place value and not by the
    scanner's running total. *)
Fixpoint decimal_value (s : string) : option Z :=
  match s with
  | EmptyString => None
  | String c rest =>
      match decimal_digit c with
      | Some d =>
          match rest with
          | EmptyString => Some d
          | String _ _ =>
              match decimal_value rest with
              | Some v => Some (d * 10 ^ Z.of_nat (String.length rest) + v)
              | None => None
              end
          end
      | None => None
      end
  end.

(** A log entry names the resources of organization [org] when it is a
    query of the resource store for the environment assignment under the
    assignment id, or for a namespace or environment under the environment
    name. *)
Definition names_of (org : string) (e : event) : Prop :=
  match e with
  | EKubectl q _ =>
      (k_resource_type q = "environmentassignment" ∧
       k_resource_name q = org +:+ "-0") ∨
      ((k_resource_type q = "environment" ∨ k_resource_type q = "namespace") ∧
       k_resource_name q = "environment-" +:+ org +:+ "-0")
  | _ => True
  end.

(** The resource type and name of every query of the resource store in a
    log, in order. *)
Definition queried (log : list event) : list (string * string) :=
  omap (λ e, match e with
             | EKubectl q _ => Some (k_resource_type q, k_resource_name q)
             | _ => None
             end) log.

(** A computation takes every store to one that is [R]-related to it,
    whether it returns or raises. *)
Definition keeps {W A : Type} (R : state W → state W → Prop) (m : M (state W) A)
  : Prop :=
  ∀ s, R s (m s).2.

(** The configuration object is as it was. *)
Definition same_config {W : Type} (s s' : state W) : Prop :=
  st_config s' = st_config s.

(** The log has grown by entries that all satisfy [P]. *)
Definition logs_only {W : Type} (P : event → Prop) (s s' : state W) : Prop :=
  ∃ new, st_trace s' = st_trace s ++ new ∧ Forall P new.

(** ** Scripted collaborators, for running the controller on examples *)

Module Scripted.

Inductive canned : Type :=
  | CHttp (ans : http_answer)
  | CKubectl (ans : kubectl_answer)
  | CConnect (ans : connect_answer).

(** Every call takes the next canned answer; a script that has run out,
    or whose next answer is of another collaborator, makes the call fail. *)
Definition collaborators : Collaborators (list canned) := {|
  region_api _ config w :=
    match w with
    | CHttp ans :: w' => (ans, config, w')
    | _ => (Crashed (OtherError "script"), config, w)
    end;
  resource_store _ w :=
    match w with
    | CKubectl ans :: w' => (ans, w')
    | _ => (KubectlFailed (OtherError "script"), w)
    end;
  prober _ _ _ w :=
    match w with
    | CConnect ans :: w' => (ans, w')
    | _ => (ConnectFailed (OtherError "script"), w)
    end;
|}.

Definition org1 : EnvironmentConfig :=
  mkConfig "org1" "http://region-api" "kind-env" "kind-system".

Definition ok (payload : json) : Response := mkResponse 200 (Some payload).

(** [{"regionInfo": {"resolvable": false}}] *)
Definition unresolvable : json :=
  JObj {[ "regionInfo" := JObj {[ "resolvable" := JBool false ]} ]}.

(** [{"regionInfo": {"resolvable": true, "sqlAddress": address}}] *)
Definition resolvable_at (address : string) : json :=
  JObj {[ "regionInfo" :=
            JObj (<[ "resolvable" := JBool true ]>
                    {[ "sqlAddress" := JStr address ]}) ]}.

Definition start (script : list canned) : state (list canned) :=
  mkState org1 script [].

(** The region API accepts the PATCH, the environment resource is there at
    the second poll, the environmentassignment is fetched. *)
Definition creation : list canned :=
  [CHttp (Responded (mkResponse 200 None)); CKubectl NotFound;
   CKubectl (Found (JObj ∅)); CKubectl (Found (JObj ∅))].

(** The region API accepts the DELETE and nothing is left in the store. *)
Definition deletion : list canned :=
  [CHttp (Responded (mkResponse 200 None));
   CKubectl NotFound; CKubectl NotFound; CKubectl NotFound].

(** An operation that plays back a list of outcomes, one per invocation. *)
Definition playback {A : Type} : M (list (result A)) A := λ s,
  match s with
  | r :: s' => (r, s')
  | [] => (Raise (OtherError "script"), [])
  end.

End Scripted.


(** ** [output_consistency/data_type/data_type_category.py] *)

(** The enumeration [DataTypeCategory]. *)
Inductive DataTypeCategory : Type :=
  | ANY | DYNAMIC
  | NUMERIC | BOOLEAN | STRING | DATE_TIME | BYTEA | JSONB | UUID
  | ENUM
  | ARRAY | LIST | MAP | RANGE
  | RECORD
  | UNDETERMINED.

(** The members in the order of their definition, as iterating the class
    yields them. *)
Definition DataTypeCategory_members : list DataTypeCategory :=
  [ANY; DYNAMIC; NUMERIC; BOOLEAN; STRING; DATE_TIME; BYTEA; JSONB; UUID; ENUM;
   ARRAY; LIST; MAP; RANGE; RECORD; UNDETERMINED].

(** [member.value]. *)
Definition DataTypeCategory_value (c : DataTypeCategory) : Z :=
  match c with
  | ANY => 10
  | DYNAMIC => 20
  | NUMERIC => 101
  | BOOLEAN => 102
  | STRING => 103
  | DATE_TIME => 104
  | BYTEA => 105
  | JSONB => 106
  | UUID => 107
  | ENUM => 200
  | ARRAY => 300
  | LIST => 301
  | MAP => 302
  | RANGE => 303
  | RECORD => 400
  | UNDETERMINED => 500
  end.

(** [DataTypeCategory(v)]: [Enum] looks the members up by value, in the
    order of their definition, and raises [ValueError] when none has it. *)
Definition DataTypeCategory_of_value (v : Z) : result DataTypeCategory :=
  match List.find (λ c, DataTypeCategory_value c =? v) DataTypeCategory_members with
  | Some c => Ok c
  | None => Raise ValueError
  end.

(** ** [scalability/schema.py] *)

(** [Source], whose one member [TABLE] takes the value [auto()] gives a
    first member. *)
Inductive Source : Type := TABLE.

Definition Source_value (s : Source) : Z :=
  match s with
  | TABLE => 1
  end.

Inductive TransactionIsolation : Type :=
  | SERIALIZABLE
  | STRICT_SERIALIZABLE.

Definition TransactionIsolation_value (t : TransactionIsolation) : string :=
  match t with
  | SERIALIZABLE => "serializable"
  | STRICT_SERIALIZABLE => "strict serializable"
  end.

(** [TransactionIsolation.__str__]. *)
Definition TransactionIsolation_str (self : TransactionIsolation) : string :=
  TransactionIsolation_value self.

(** An object of class [Schema]: the five attributes [__init__] sets. *)
Record Schema : Type := mkSchema {
  schema : string;
  source : Source;
  create_index : bool;
  transaction_isolation : option TransactionIsolation;
  cluster_name : option string;
}.

(** [Schema.__init__]: an argument that is not passed ([None] here) takes
    its default. *)
Definition Schema_init (source : option Source) (schema : option string)
    (create_index : option bool)
    (transaction_isolation : option TransactionIsolation)
    (cluster_name : option string) : Schema :=
  mkSchema (default "scalability" schema) (default TABLE source)
           (default true create_index) transaction_isolation cluster_name.

(** [Schema.connect_sqls]. *)
Definition connect_sqls (self : Schema) : list string :=
  let init_sqls := ["SET SCHEMA = " +:+ schema self +:+ ";"] in
  let init_sqls :=
    match cluster_name self with
    | Some name => init_sqls ++ ["SET cluster_name = " +:+ name +:+ ";"]
    | None => init_sqls
    end in
  let init_sqls :=
    match transaction_isolation self with
    | Some isolation =>
        init_sqls
        ++ ["SET transaction_isolation = '" +:+ TransactionIsolation_str isolation
            +:+ "';"]
    | None => init_sqls
    end in
  init_sqls.

(** [Schema.init_sqls]. *)
Definition init_sqls (self : Schema) : list string :=
  let init_sqls :=
    connect_sqls self
    ++ ["DROP SCHEMA IF EXISTS " +:+ schema self +:+ " CASCADE;";
        "CREATE SCHEMA " +:+ schema self +:+ ";";
        "DROP TABLE IF EXISTS t1;"] in
  let init_sqls :=
    match source self with
    | TABLE =>
        init_sqls
        ++ ["CREATE TABLE t1 (f1 INTEGER DEFAULT 1);";
            "INSERT INTO t1 DEFAULT VALUES;"]
    end in
  let init_sqls :=
    if create_index self then init_sqls ++ ["CREATE INDEX i1 ON t1 (f1);"]
    else init_sqls in
  init_sqls.

(** The last character of a text. *)
Fixpoint last_char (s : string) : option ascii :=
  match s with
  | EmptyString => None
  | String c EmptyString => Some c
  | String _ rest => last_char rest
  end.

(** ** More vocabulary for the runs of the controller *)

(** A payload that passes the three assertions of the probe. *)
Definition ready (payload : json) : bool :=
  match payload with
  | JObj m =>
      match dict_get m "regionInfo" with
      | JObj region_info =>
          truthy (JObj region_info)
          && truthy (dict_get region_info "resolvable")
          && truthy (dict_get region_info "sqlAddress")
      | _ => false
      end
  | _ => false
  end.

(** A log entry of a readiness probe: a GET of [/api/region] with no body
    and no timeout of its own. *)
Definition is_probe (e : event) : Prop :=
  ∃ base_url ans, e = EHttp (mkRequest GET base_url "/api/region" None None) ans.

(** A log entry of the DELETE of [/api/region] with its timeout of 305
    seconds. *)
Definition is_delete (e : event) : Prop :=
  ∃ base_url ans,
    e = EHttp (mkRequest DELETE base_url "/api/region" None (Some 305)) ans.

(** The answer of the region API that lets an operation go on: a 2xx
    response. *)
Definition accepted (ans : http_answer) : bool :=
  match ans with
  | Responded r => is_2xx (status_code r)
  | _ => false
  end.

(** The three absence checks of organization [org] under configuration
    [config], in the order the controller makes them. *)
Definition absence_checks (config : EnvironmentConfig) (org : string)
  : list kubectl_query :=
  [mkQuery (environment_context config) None "namespace" (environment_name org);
   mkQuery (environment_context config) None "environment" (environment_name org);
   mkQuery (system_context config) None "environmentassignment" (assignment_id org)].
(** ** Facts about the monad and the retry engine *)

Section MonadFacts.
Context {St : Type}.

Lemma bind_run {A B : Type} (m : M St A) (f : A → M St B) (s : St) :
  (m ≫= f) s = match m s with
               | (Ok a, s') => f a s'
               | (Raise e, s') => (Raise e, s')
               end.
Proof. reflexivity. Qed.

Lemma bind_ok {A B : Type} (m : M St A) (f : A → M St B) s a s' :
  m s = (Ok a, s') → (m ≫= f) s = f a s'.
Proof. intros H. rewrite bind_run, H. reflexivity. Qed.

Lemma bind_raise {A B : Type} (m : M St A) (f : A → M St B) s e s' :
  m s = (Raise e, s') → (m ≫= f) s = (Raise e, s').
Proof. intros H. rewrite bind_run, H. reflexivity. Qed.

Lemma retry_succ {A : Type} (op : M St A) n tol s :
  retry op (S n) tol s =
  match op s with
  | (Ok a, s') => (Ok a, s')
  | (Raise e, s') =>
      if bool_decide (e ∈ tol) then retry op n tol s' else (Raise e, s')
  end.
Proof. reflexivity. Qed.

Lemma retry_ok {A : Type} (op : M St A) n tol s a s' :
  op s = (Ok a, s') → retry op (S n) tol s = (Ok a, s').
Proof. intros H. rewrite retry_succ, H. reflexivity. Qed.

Lemma retry_tolerated {A : Type} (op : M St A) n tol s e s' :
  op s = (Raise e, s') → e ∈ tol → retry op (S n) tol s = retry op n tol s'.
Proof.
  intros H Hin. rewrite retry_succ, H.
  rewrite bool_decide_eq_true_2; [reflexivity | assumption].
Qed.

Lemma retry_fatal {A : Type} (op : M St A) n tol s e s' :
  op s = (Raise e, s') → e ∉ tol → retry op (S n) tol s = (Raise e, s').
Proof.
  intros H Hin. rewrite retry_succ, H.
  rewrite bool_decide_eq_false_2; [reflexivity | assumption].
Qed.

(** [k] tolerated failures in a row use up [k] attempts. *)
Lemma retry_after {A : Type} (op : M St A) tol k : ∀ n s,
  (∀ i, (i < k)%nat → ∃ e, (op (after op i s)).1 = Raise e ∧ e ∈ tol) →
  retry op (k + n) tol s = retry op n tol (after op k s).
Proof.
  induction k as [|k IH]; intros n s Hfail; [reflexivity|].
  destruct (Hfail O ltac:(lia)) as (e & He & Hin). simpl in He.
  destruct (op s) as [r s1] eqn:Hop. simpl in He. subst r.
  change (S k + n)%nat with (S (k + n)).
  rewrite (retry_tolerated _ _ _ _ _ _ Hop Hin).
  simpl. rewrite Hop. simpl. apply IH.
  intros i Hi. specialize (Hfail (S i) ltac:(lia)).
  simpl in Hfail. rewrite Hop in Hfail. exact Hfail.
Qed.

Lemma counted_run {A : Type} (op : M St A) s n :
  counted op (s, n) = ((op s).1, ((op s).2, S n)).
Proof. unfold counted. destruct (op s). reflexivity. Qed.

Lemma after_counted {A : Type} (op : M St A) k : ∀ s n,
  after (counted op) k (s, n) = (after op k s, (k + n)%nat).
Proof.
  induction k as [|k IH]; intros s n; [reflexivity|].
  cbn [after]. rewrite counted_run. cbn [snd]. rewrite IH. f_equal. lia.
Qed.

Lemma counted_fails {A : Type} (op : M St A) (tol : list exn) k s :
  (∀ i, (i < k)%nat → ∃ e, (op (after op i s)).1 = Raise e ∧ e ∈ tol) →
  ∀ i, (i < k)%nat →
    ∃ e, (counted op (after (counted op) i (s, O))).1 = Raise e ∧ e ∈ tol.
Proof.
  intros Hfail i Hi. rewrite after_counted, counted_run. apply Hfail, Hi.
Qed.

End MonadFacts.

Arguments retry : simpl never.

(** ** Running the collaborators' entry points *)

Section EntryPoints.
Context {W : Type} (env : Collaborators W).

Lemma gets_run {A : Type} (f : state W → A) s : gets f s = (Ok (f s), s).
Proof. reflexivity. Qed.

Lemma lift_run {A : Type} (r : result A) (s : state W) : lift r s = (r, s).
Proof. reflexivity. Qed.

Lemma ret_run {A : Type} (a : A) (s : state W) :
  (mret a : M (state W) A) s = (Ok a, s).
Proof. reflexivity. Qed.

Lemma send_run req config w tr ans config' w' :
  region_api env req config w = (ans, config', w') →
  send env req (mkState config w tr)
  = (Ok ans, mkState config' w' (tr ++ [EHttp req ans])).
Proof. intros H. unfold send. simpl. rewrite H. reflexivity. Qed.

Lemma http_call_run req config w tr ans config' w' :
  region_api env req config w = (ans, config', w') →
  http_call env req (mkState config w tr)
  = (match ans with
     | Responded r => if is_2xx (status_code r) then Ok r else Raise HTTPError
     | TransportFailure => Raise HTTPError
     | Crashed e => Raise e
     end, mkState config' w' (tr ++ [EHttp req ans])).
Proof.
  intros H. unfold http_call. rewrite (bind_ok _ _ _ _ _ (send_run _ _ _ _ _ _ _ H)).
  destruct ans as [r| |e]; [destruct (is_2xx (status_code r))|..]; reflexivity.
Qed.

Lemma query_run q config w tr ans w' :
  resource_store env q w = (ans, w') →
  query env q (mkState config w tr)
  = (Ok ans, mkState config w' (tr ++ [EKubectl q ans])).
Proof. intros H. unfold query. simpl. rewrite H. reflexivity. Qed.

Lemma kubectl_get_run context namespace type name config w tr ans w' :
  let q := mkQuery context namespace type name in
  resource_store env q w = (ans, w') →
  kubectl_get env context namespace type name (mkState config w tr)
  = (match ans with
     | Found resource => Ok resource
     | NotFound => Raise ResourceNotFound
     | KubectlFailed e => Raise e
     end, mkState config w' (tr ++ [EKubectl q ans])).
Proof.
  intros q H. unfold kubectl_get. rewrite (bind_ok _ _ _ _ _ (query_run _ _ _ _ _ _ H)).
  destruct ans; reflexivity.
Qed.

Lemma kubectl_get_or_none_run context namespace type name config w tr ans w' :
  let q := mkQuery context namespace type name in
  resource_store env q w = (ans, w') →
  kubectl_get_or_none env context namespace type name (mkState config w tr)
  = (match ans with
     | Found resource => Ok (Some resource)
     | NotFound => Ok None
     | KubectlFailed e => Raise e
     end, mkState config w' (tr ++ [EKubectl q ans])).
Proof.
  intros q H. unfold kubectl_get_or_none.
  rewrite (bind_ok _ _ _ _ _ (query_run _ _ _ _ _ _ H)).
  destruct ans; reflexivity.
Qed.

Lemma wait_for_connectable_run host port timeout config w tr ans w' :
  prober env host port timeout w = (ans, w') →
  wait_for_connectable env (host, port) timeout (mkState config w tr)
  = (match ans with
     | Connected => Ok tt
     | ConnectFailed e => Raise e
     end, mkState config w' (tr ++ [EConnect host port timeout ans])).
Proof.
  intros H. unfold wait_for_connectable. simpl. rewrite H.
  destruct ans; reflexivity.
Qed.

(** *** Reading a script *)

Lemma plays_app config t1 : ∀ t2 w w2,
  plays env config w (t1 ++ t2) w2 ↔
  ∃ w1, plays env config w t1 w1 ∧ plays env config w1 t2 w2.
Proof.
  induction t1 as [|e t1 IH]; intros t2 w w2; simpl.
  - split.
    + intros H. exists w. split; [constructor | exact H].
    + intros (w1 & H1 & H2). inversion H1; subst. exact H2.
  - split.
    + intros H. inversion H; subst;
        match goal with Hp : plays _ _ _ (t1 ++ t2) _ |- _ =>
          apply IH in Hp; destruct Hp as (wm & Ha & Hb) end;
        exists wm; (split; [econstructor; eassumption | exact Hb]).
    + intros (w1 & H1 & H2). inversion H1; subst;
        econstructor; try eassumption; apply IH; eauto.
Qed.

Lemma plays_http_inv config w req ans t w2 :
  plays env config w (EHttp req ans :: t) w2 →
  ∃ w1, region_api env req config w = (ans, config, w1) ∧ plays env config w1 t w2.
Proof. intros H. inversion H; subst. eauto. Qed.

Lemma plays_kubectl_inv config w q ans t w2 :
  plays env config w (EKubectl q ans :: t) w2 →
  ∃ w1, resource_store env q w = (ans, w1) ∧ plays env config w1 t w2.
Proof. intros H. inversion H; subst. eauto. Qed.

Lemma plays_connect_inv config w host port timeout ans t w2 :
  plays env config w (EConnect host port timeout ans :: t) w2 →
  ∃ w1, prober env host port timeout w = (ans, w1) ∧ plays env config w1 t w2.
Proof. intros H. inversion H; subst. eauto. Qed.

Lemma plays_nil_inv config w w2 : plays env config w [] w2 → w2 = w.
Proof. intros H. inversion H; subst. reflexivity. Qed.

(** A retry loop over an operation that makes one call per attempt: a
    script of [xs] answers that each make the attempt fail in a tolerated
    way uses up [length xs] attempts and logs exactly those calls. *)
Lemma retry_replay {A X : Type} (op : M (state W) A) (tol : list exn)
    (ev : X → event) (bad : X → Prop) config :
  (∀ x w w1 tr, plays env config w [ev x] w1 → bad x →
     ∃ e, e ∈ tol ∧
          op (mkState config w tr) = (Raise e, mkState config w1 (tr ++ [ev x]))) →
  ∀ xs n w w1 tr,
    Forall bad xs →
    plays env config w (ev <$> xs) w1 →
    retry op (length xs + n) tol (mkState config w tr)
    = retry op n tol (mkState config w1 (tr ++ (ev <$> xs))).
Proof.
  intros Hstep xs. induction xs as [|x xs IH]; intros n w w1 tr Hbad Hplay.
  - simpl in *. apply plays_nil_inv in Hplay. subst. rewrite app_nil_r. reflexivity.
  - apply Forall_cons in Hbad as [Hx Hbad].
    change (ev <$> x :: xs) with ([ev x] ++ (ev <$> xs)) in Hplay.
    apply plays_app in Hplay as (wm & H1 & H2).
    destruct (Hstep x w wm tr H1 Hx) as (e & Hin & Hop).
    change (length (x :: xs) + n)%nat with (S (length xs + n)).
    rewrite (retry_tolerated _ _ _ _ _ _ Hop Hin).
    rewrite (IH n wm w1 _ Hbad H2).
    rewrite <- app_assoc. reflexivity.
Qed.

End EntryPoints.


(** ** Running the controller *)

Ltac tidy :=
  cbv beta iota zeta; unfold compose; cbn [st_config st_world st_trace fst snd].
Ltac run_gets := rewrite bind_run, gets_run; tidy.
Ltac run_lift := rewrite bind_run, lift_run; tidy.

Section ProbeFacts.
Context {W : Type} (env : Collaborators W) (max_str_digits : nat).

(** The three assertions of the probe, on a payload that is a [dict]. *)
Lemma probe_assertions (r : Response) (s : state W) m :
  (region_info ← lift (py_get (JObj m) "regionInfo");
   lift (py_assert (truthy region_info));;
   resolvable ← lift (py_get region_info "resolvable");
   lift (py_assert (truthy resolvable));;
   sql_address ← lift (py_get region_info "sqlAddress");
   lift (py_assert (truthy sql_address));;
   mret r) s
  = (match dict_get m "regionInfo" with
     | JObj region_info =>
         if truthy (JObj region_info)
            && truthy (dict_get region_info "resolvable")
            && truthy (dict_get region_info "sqlAddress")
         then Ok r else Raise AssertionError
     | region_info =>
         if truthy region_info then Raise AttributeError else Raise AssertionError
     end, s).
Proof.
  run_lift. cbn [py_get].
  destruct (dict_get m "regionInfo") as [| b | n | f | a | l | region_info].
  7: { run_lift.
       destruct (truthy (JObj region_info)); [|reflexivity].
       cbn [py_assert andb]. run_lift. cbn [py_get]. run_lift.
       destruct (truthy (dict_get region_info "resolvable")); [|reflexivity].
       cbn [py_assert andb]. run_lift. run_lift.
       destruct (truthy (dict_get region_info "sqlAddress")); reflexivity. }
  all: run_lift; match goal with |- context [py_assert ?b] => destruct b end;
    reflexivity.
Qed.

(** One probe, by the answer of the region API: what [get_environment]
    returns or raises, and the one GET it logs. *)
Lemma probe_run config w tr ans w1 :
  region_api env (probe_request config) config w = (ans, config, w1) →
  get_environment env (mkState config w tr)
  = (match ans with
     | Responded r =>
         if is_2xx (status_code r) then
           match body r with
           | Some (JObj m) =>
               match dict_get m "regionInfo" with
               | JObj region_info =>
                   if truthy (JObj region_info)
                      && truthy (dict_get region_info "resolvable")
                      && truthy (dict_get region_info "sqlAddress")
                   then Ok r else Raise AssertionError
               | region_info =>
                   if truthy region_info then Raise AttributeError
                   else Raise AssertionError
               end
           | Some _ => Raise AttributeError
           | None => Raise JSONDecodeError
           end
         else Raise HTTPError
     | TransportFailure => Raise HTTPError
     | Crashed e => Raise e
     end, mkState config w1 (tr ++ [EHttp (probe_request config) ans])).
Proof.
  intros Hget. unfold get_environment. run_gets.
  rewrite bind_run. unfold get.
  rewrite (http_call_run env _ _ _ _ _ _ _ Hget).
  destruct ans as [r| |e]; try reflexivity.
  destruct (is_2xx (status_code r)); [|reflexivity]. tidy.
  unfold response_json.
  destruct (body r) as [payload|]; [|reflexivity].
  destruct payload as [| | | | | |m]; try reflexivity.
  run_lift. apply probe_assertions.
Qed.

Lemma probe_not_ready config w tr r w1 :
  not_ready_response r = true →
  plays env config w [probe_event config r] w1 →
  get_environment env (mkState config w tr)
  = (Raise AssertionError, mkState config w1 (tr ++ [probe_event config r])).
Proof.
  intros Hr Hplay.
  apply plays_http_inv in Hplay as (w' & Hget & Hnil).
  apply plays_nil_inv in Hnil. subst w'.
  unfold not_ready_response in Hr. apply andb_true_iff in Hr as [Hstatus Hbody].
  rewrite (probe_run _ _ _ _ _ Hget), Hstatus.
  destruct (body r) as [payload|]; [|discriminate].
  destruct payload as [| | | | | |m]; try discriminate.
  unfold not_ready in Hbody.
  destruct (dict_get m "regionInfo") as [| b | n | f | a | l | region_info].
  7: { rewrite <- !negb_andb in Hbody. apply negb_true_iff in Hbody.
       rewrite Hbody. reflexivity. }
  all: apply negb_true_iff in Hbody; rewrite Hbody; reflexivity.
Qed.

Lemma probe_ready config w tr r payload sql_address w1 :
  is_2xx (status_code r) = true →
  body r = Some payload →
  ready_with payload sql_address →
  plays env config w [probe_event config r] w1 →
  get_environment env (mkState config w tr)
  = (Ok r, mkState config w1 (tr ++ [probe_event config r])).
Proof.
  intros Hstatus Hbody (m & region_info & -> & Hinfo & Hres & Hsql & Htruthy) Hplay.
  apply plays_http_inv in Hplay as (w' & Hget & Hnil).
  apply plays_nil_inv in Hnil. subst w'.
  rewrite (probe_run _ _ _ _ _ Hget), Hstatus, Hbody.
  assert (dict_get m "regionInfo" = JObj region_info) as ->
    by (unfold dict_get; rewrite Hinfo; reflexivity).
  assert (dict_get region_info "sqlAddress" = sql_address) as ->
    by (unfold dict_get; rewrite Hsql; reflexivity).
  rewrite Hres, Htruthy.
  assert (truthy (JObj region_info) = true) as ->; [|reflexivity].
  cbn [truthy]. apply negb_true_iff, bool_decide_eq_false.
  intros ->. rewrite lookup_empty in Hsql. discriminate.
Qed.

(** "Not ready" answers use up one attempt each. *)
Lemma poll_pending config pending n w w1 tr :
  Forall (λ r, not_ready_response r = true) pending →
  plays env config w (probe_event config <$> pending) w1 →
  retry (get_environment env) (length pending + n) [AssertionError]
        (mkState config w tr)
  = retry (get_environment env) n [AssertionError]
          (mkState config w1 (tr ++ (probe_event config <$> pending))).
Proof.
  apply (retry_replay env (get_environment env) [AssertionError]
           (probe_event config) (λ r, not_ready_response r = true)).
  intros r w0 w2 tr0 Hplay Hr. exists AssertionError.
  split; [apply list_elem_of_singleton; reflexivity
         | apply probe_not_ready; assumption].
Qed.

(** What follows the retry loop once a probe has returned: the address is
    split, the port converted, the endpoint probed. *)
Lemma wait_after_ready s last payload sql_address s1 :
  retry (get_environment env) 600 [AssertionError] s = (Ok last, s1) →
  body last = Some payload →
  ready_with payload sql_address →
  wait_for_environmentd env max_str_digits s
  = match py_split sql_address ":" with
    | Raise e => (Raise e, s1)
    | Ok pieces =>
        match unpack2 pieces with
        | Raise e => (Raise e, s1)
        | Ok (host, port_text) =>
            match py_int max_str_digits port_text with
            | Raise e => (Raise e, s1)
            | Ok port =>
                match wait_for_connectable env (host, port) 300 s1 with
                | (Ok _, s2) => (Ok payload, s2)
                | (Raise e, s2) => (Raise e, s2)
                end
            end
        end
    end.
Proof.
  intros Hretry Hbody (m & region_info & -> & Hinfo & Hres & Hsql & Htruthy).
  unfold wait_for_environmentd.
  rewrite (bind_ok _ _ _ _ _ Hretry).
  unfold response_json. rewrite Hbody. run_lift.
  cbn [py_getitem]. rewrite Hinfo. run_lift.
  cbn [py_getitem]. rewrite Hsql. run_lift.
  destruct (py_split sql_address ":") as [pieces|e]; [|reflexivity].
  run_lift.
  destruct (unpack2 pieces) as [[host port_text]|e]; [|reflexivity].
  run_lift.
  destruct (py_int max_str_digits port_text) as [port|e]; [|reflexivity].
  run_lift. rewrite bind_run.
  destruct (wait_for_connectable env (host, port) 300 s1) as [[[]|e] s2];
    reflexivity.
Qed.

Lemma poll_until_ready config pending last payload sql_address w w1 tr :
  Forall (λ r, not_ready_response r = true) pending →
  (length pending < 600)%nat →
  is_2xx (status_code last) = true →
  body last = Some payload →
  ready_with payload sql_address →
  plays env config w ((probe_event config <$> pending) ++ [probe_event config last]) w1 →
  retry (get_environment env) 600 [AssertionError] (mkState config w tr)
  = (Ok last,
     mkState config w1
       (tr ++ (probe_event config <$> pending) ++ [probe_event config last])).
Proof.
  intros Hpending Hlen Hstatus Hbody Hready Hplay.
  apply plays_app in Hplay as (wm & Hplay1 & Hplay2).
  replace 600%nat with (length pending + S (599 - length pending))%nat by lia.
  rewrite (poll_pending config pending _ w wm tr Hpending Hplay1).
  rewrite app_assoc.
  apply retry_ok. eapply probe_ready; eassumption.
Qed.

End ProbeFacts.

Section DeleteFacts.
Context {W : Type} (env : Collaborators W).

(** One attempt of the DELETE, by the answer of the region API. *)
Lemma delete_attempt_run config w tr ans w1 :
  region_api env (delete_request config) config w = (ans, config, w1) →
  delete_environment env (mkState config w tr)
  = (match ans with
     | Responded r => if is_2xx (status_code r) then Ok tt else Raise HTTPError
     | TransportFailure => Raise HTTPError
     | Crashed e => Raise e
     end, mkState config w1 (tr ++ [delete_event config ans])).
Proof.
  intros Hdel. unfold delete_environment. run_gets.
  rewrite bind_run. unfold delete.
  rewrite (http_call_run env _ _ _ _ _ _ _ Hdel).
  destruct ans as [r| |e]; try reflexivity.
  destruct (is_2xx (status_code r)); reflexivity.
Qed.

Lemma delete_attempt_fails config w tr ans w1 :
  http_level_failure ans = true →
  plays env config w [delete_event config ans] w1 →
  delete_environment env (mkState config w tr)
  = (Raise HTTPError, mkState config w1 (tr ++ [delete_event config ans])).
Proof.
  intros Hfail Hplay.
  apply plays_http_inv in Hplay as (w' & Hdel & Hnil).
  apply plays_nil_inv in Hnil. subst w'.
  rewrite (delete_attempt_run _ _ _ _ _ Hdel).
  destruct ans as [r| |e]; cbn [http_level_failure] in Hfail.
  - apply negb_true_iff in Hfail. rewrite Hfail. reflexivity.
  - reflexivity.
  - apply bool_decide_eq_true in Hfail. subst e. reflexivity.
Qed.

(** HTTP-level failures use up one attempt each. *)
Lemma delete_failures config failures n w w1 tr :
  Forall (λ ans, http_level_failure ans = true) failures →
  plays env config w (delete_event config <$> failures) w1 →
  retry (delete_environment env) (length failures + n) [HTTPError]
        (mkState config w tr)
  = retry (delete_environment env) n [HTTPError]
          (mkState config w1 (tr ++ (delete_event config <$> failures))).
Proof.
  apply (retry_replay env (delete_environment env) [HTTPError]
           (delete_event config) (λ ans, http_level_failure ans = true)).
  intros ans w0 w2 tr0 Hplay Hans. exists HTTPError.
  split; [apply list_elem_of_singleton; reflexivity
         | apply delete_attempt_fails; assumption].
Qed.

Lemma delete_until_accepted config failures r w w1 tr :
  Forall (λ ans, http_level_failure ans = true) failures →
  (length failures < 10)%nat →
  is_2xx (status_code r) = true →
  plays env config w
    ((delete_event config <$> failures) ++ [delete_event config (Responded r)]) w1 →
  retry (delete_environment env) 10 [HTTPError] (mkState config w tr)
  = (Ok tt,
     mkState config w1
       (tr ++ (delete_event config <$> failures)
           ++ [delete_event config (Responded r)])).
Proof.
  intros Hfail Hlen Hstatus Hplay.
  apply plays_app in Hplay as (wm & Hplay1 & Hplay2).
  apply plays_http_inv in Hplay2 as (w' & Hdel & Hnil).
  apply plays_nil_inv in Hnil. subst w'.
  replace 10%nat with (length failures + S (9 - length failures))%nat by lia.
  rewrite (delete_failures config failures _ w wm tr Hfail Hplay1).
  rewrite app_assoc.
  apply retry_ok. rewrite (delete_attempt_run _ _ _ _ _ Hdel), Hstatus. reflexivity.
Qed.

(** The three absence checks that follow an accepted DELETE, by the answers
    of the resource store. *)
Lemma delete_checks config w tr w0 tr0 a1 a2 a3 w1 w2 w3 :
  retry (delete_environment env) 10 [HTTPError] (mkState config w tr)
  = (Ok tt, mkState config w0 tr0) →
  resource_store env (namespace_query config) w0 = (a1, w1) →
  resource_store env (environment_query config) w1 = (a2, w2) →
  resource_store env (assignment_query config) w2 = (a3, w3) →
  let c1 := EKubectl (namespace_query config) a1 in
  let c2 := EKubectl (environment_query config) a2 in
  let c3 := EKubectl (assignment_query config) a3 in
  delete_environment_assignment env (mkState config w tr)
  = match a1 with
    | Found _ => (Raise AssertionError, mkState config w1 (tr0 ++ [c1]))
    | KubectlFailed e => (Raise e, mkState config w1 (tr0 ++ [c1]))
    | NotFound =>
        match a2 with
        | Found _ => (Raise AssertionError, mkState config w2 (tr0 ++ [c1; c2]))
        | KubectlFailed e => (Raise e, mkState config w2 (tr0 ++ [c1; c2]))
        | NotFound =>
            match a3 with
            | Found _ =>
                (Raise AssertionError, mkState config w3 (tr0 ++ [c1; c2; c3]))
            | KubectlFailed e => (Raise e, mkState config w3 (tr0 ++ [c1; c2; c3]))
            | NotFound => (Ok tt, mkState config w3 (tr0 ++ [c1; c2; c3]))
            end
        end
    end.
Proof.
  intros Hretry H1 H2 H3 c1 c2 c3. subst c1 c2 c3.
  unfold delete_environment_assignment. run_gets.
  rewrite (bind_ok _ _ _ _ _ Hretry). run_gets.
  rewrite bind_run.
  rewrite (kubectl_get_or_none_run env _ _ _ _ _ _ _ _ _ H1).
  destruct a1 as [resource1| |e1]; try reflexivity. tidy.
  run_lift. run_gets. rewrite bind_run.
  rewrite (kubectl_get_or_none_run env _ _ _ _ _ _ _ _ _ H2).
  rewrite <- app_assoc.
  destruct a2 as [resource2| |e2]; try reflexivity. tidy.
  run_lift. run_gets. rewrite bind_run.
  rewrite (kubectl_get_or_none_run env _ _ _ _ _ _ _ _ _ H3).
  rewrite <- app_assoc.
  destruct a3 as [resource3| |e3]; reflexivity.
Qed.

End DeleteFacts.

Section CreateFacts.
Context {W : Type} (env : Collaborators W).

Lemma patch_body_eq image :
  match image with
  | Some image0 => <["environmentdImageRef" := JStr image0]> ∅
  | None => ∅
  end = patch_body image.
Proof. destruct image; reflexivity. Qed.

Lemma patch_body_lookup image key :
  patch_body image !! key
  = if decide (key = "environmentdImageRef") then JStr <$> image else None.
Proof.
  destruct image as [image|]; cbn [patch_body fmap option_fmap option_map].
  - case_decide as Hkey.
    + subst key. apply lookup_singleton_eq.
    + apply lookup_singleton_ne. congruence.
  - rewrite lookup_empty. case_decide; reflexivity.
Qed.

(** The operation up to and including the PATCH, by the answer of the region
    API; what follows a 2xx answer is the poll and the fetch. *)
Lemma create_run image config w tr ans config' w1 :
  region_api env (patch_request config (patch_body image)) config w
  = (ans, config', w1) →
  let s1 := mkState config' w1
              (tr ++ [EHttp (patch_request config (patch_body image)) ans]) in
  create_environment_assignment env image (mkState config w tr)
  = match ans with
    | Responded r =>
        if is_2xx (status_code r) then
          (kubectl_get_retry env (environment_context config') None "environment"
             (environment_name (organization_id config)) 10;;
           context ← gets (system_context ∘ st_config);
           kubectl_get env context None "environmentassignment"
             (assignment_id (organization_id config))) s1
        else (Raise HTTPError, s1)
    | TransportFailure => (Raise HTTPError, s1)
    | Crashed e => (Raise e, s1)
    end.
Proof.
  intros Hpatch s1. subst s1.
  unfold create_environment_assignment.
  run_gets. run_gets. rewrite patch_body_eq.
  rewrite bind_run. unfold patch.
  rewrite (http_call_run env _ _ _ _ _ _ _ Hpatch).
  destruct ans as [r| |e]; try reflexivity.
  destruct (is_2xx (status_code r)); [|reflexivity].
  tidy. run_gets. reflexivity.
Qed.

Lemma poll_miss config w tr w1 :
  plays env config w [EKubectl (environment_query config) NotFound] w1 →
  kubectl_get env (environment_context config) None "environment"
    (environment_name (organization_id config)) (mkState config w tr)
  = (Raise ResourceNotFound,
     mkState config w1 (tr ++ [EKubectl (environment_query config) NotFound])).
Proof.
  intros Hplay.
  apply plays_kubectl_inv in Hplay as (w' & Hq & Hnil).
  apply plays_nil_inv in Hnil. subst w'.
  apply (kubectl_get_run env _ _ _ _ _ _ _ _ _ Hq).
Qed.

(** Every "not found" uses up one attempt of the poll. *)
Lemma poll_misses config k n w w1 tr :
  plays env config w (replicate k (EKubectl (environment_query config) NotFound)) w1 →
  retry (kubectl_get env (environment_context config) None "environment"
           (environment_name (organization_id config)))
        (k + n) [ResourceNotFound] (mkState config w tr)
  = retry (kubectl_get env (environment_context config) None "environment"
             (environment_name (organization_id config)))
          n [ResourceNotFound]
          (mkState config w1
             (tr ++ replicate k (EKubectl (environment_query config) NotFound))).
Proof.
  intros Hplay.
  pose proof (retry_replay env
    (kubectl_get env (environment_context config) None "environment"
       (environment_name (organization_id config)))
    [ResourceNotFound] (λ _ : unit, EKubectl (environment_query config) NotFound)
    (λ _, True) config) as Hreplay.
  rewrite <- (fmap_replicate (λ _ : unit, EKubectl (environment_query config) NotFound) k tt)
    in Hplay |- *.
  rewrite <- (length_replicate k tt) at 1.
  apply Hreplay.
  - intros [] w0 w2 tr0 Hstep _. exists ResourceNotFound.
    split; [apply list_elem_of_singleton; reflexivity | apply poll_miss; exact Hstep].
  - apply Forall_forall. intros; exact I.
  - exact Hplay.
Qed.

End CreateFacts.

(** ** Splitting an address *)

Section StringFacts.

Lemma str_split_length sep s : length (str_split sep s) = S (count_char sep s).
Proof.
  induction s as [|c rest IH]; [reflexivity|].
  cbn [str_split count_char].
  destruct (Ascii.eqb c sep).
  - cbn [length]. rewrite IH. reflexivity.
  - destruct (str_split sep rest) as [|piece pieces]; [discriminate|].
    cbn [length] in *. lia.
Qed.

Lemma unpack2_length {A : Type} (l : list A) :
  length l ≠ 2%nat → unpack2 l = Raise ValueError.
Proof. destruct l as [|a [|b [|c l]]]; cbn; intros; (reflexivity || lia). Qed.

Lemma str_split_one_separator sep s :
  count_char sep s = 1%nat ↔ ∃ a b, str_split sep s = [a; b].
Proof.
  pose proof (str_split_length sep s) as Hlen.
  split.
  - intros Hcount. rewrite Hcount in Hlen.
    destruct (str_split sep s) as [|a [|b [|c l]]]; try discriminate. eauto.
  - intros (a & b & Heq). rewrite Heq in Hlen. cbn in Hlen. lia.
Qed.


Lemma str_split_without sep s :
  count_char sep s = O → str_split sep s = [s].
Proof.
  induction s as [|c rest IH]; [reflexivity|].
  cbn [count_char str_split]. destruct (Ascii.eqb c sep); [discriminate|].
  intros H. rewrite (IH H). reflexivity.
Qed.

(** Splitting the text [a sep b] at [sep], when neither [a] nor [b] holds
    [sep], gives [a] and [b] back. *)
Lemma str_split_join sep a b :
  count_char sep a = O → count_char sep b = O →
  str_split sep (a +:+ String sep b) = [a; b].
Proof.
  intros Ha Hb. induction a as [|c a IH].
  - change (EmptyString +:+ String sep b) with (String sep b).
    cbn [str_split]. rewrite Ascii.eqb_refl, (str_split_without _ _ Hb). reflexivity.
  - change (String c a +:+ String sep b) with (String c (a +:+ String sep b)).
    cbn [count_char] in Ha. cbn [str_split].
    destruct (Ascii.eqb c sep); [discriminate|]. rewrite (IH Ha). reflexivity.
Qed.

End StringFacts.

(** ** What [int] accepts *)

Section IntFacts.

Lemma skip_spaces_chars s c :
  In c (list_ascii_of_string s) →
  is_int_space c = true ∨ In c (list_ascii_of_string (skip_spaces s)).
Proof.
  induction s as [|c' s IH]; cbn [skip_spaces list_ascii_of_string]; [tauto|].
  destruct (is_int_space c') eqn:Hspace.
  - intros [->|Hin]; [left; exact Hspace | apply IH, Hin].
  - intros Hin. right. exact Hin.
Qed.

Lemma skip_spaces_all s c :
  skip_spaces s = EmptyString →
  In c (list_ascii_of_string s) → is_int_space c = true.
Proof.
  intros Hskip Hin. destruct (skip_spaces_chars s c Hin) as [H|H]; [exact H|].
  rewrite Hskip in H. destruct H.
Qed.

Lemma scan_digits_chars s : ∀ prev acc digits n digits' rest c,
  scan_digits prev acc digits s = Some (n, digits', rest) →
  In c (list_ascii_of_string s) →
  is_digit c = true ∨ c = "_"%char ∨ In c (list_ascii_of_string rest).
Proof.
  induction s as [|c' s IH]; intros prev acc digits n digits' rest c Hscan Hin;
    [destruct Hin|].
  cbn [scan_digits] in Hscan. cbn [list_ascii_of_string] in Hin.
  destruct (is_digit c') eqn:Hdigit.
  - destruct Hin as [->|Hin]; [left; exact Hdigit | eapply IH; eassumption].
  - destruct (Ascii.eqb c' "_") eqn:Hus.
    + apply Ascii.eqb_eq in Hus. subst c'.
      destruct prev; try discriminate.
      destruct Hin as [->|Hin]; [right; left; reflexivity | eapply IH; eassumption].
    + destruct prev; try discriminate.
      inversion Hscan; subst. right. right. exact Hin.
Qed.

(** Every character of a text that [int] accepts is white space, a sign, a
    digit or an underscore. *)
Lemma str_to_int_chars max_str_digits s n c :
  str_to_int max_str_digits s = Some n →
  In c (list_ascii_of_string s) →
  numeric_char c = true.
Proof.
  unfold str_to_int, numeric_char. intros Hint Hin.
  destruct (skip_spaces_chars s c Hin) as [Hspace|Hin1]; [rewrite Hspace; reflexivity|].
  assert (∃ s2, (c = "+"%char ∨ c = "-"%char ∨ In c (list_ascii_of_string s2))
                ∧ ∃ r, scan_digits AtStart 0 0 s2 = Some r
                       ∧ skip_spaces r.2 = EmptyString) as (s2 & Hs2 & r & Hscan & Hrest).
  { destruct (skip_spaces s) as [|c1 s1] eqn:Hs1; [destruct Hin1|].
    assert (∀ negative s2,
              match scan_digits AtStart 0 0 s2 with
              | Some (n0, digits, rest) =>
                  match skip_spaces rest with
                  | EmptyString =>
                      if too_many_digits max_str_digits digits then None
                      else Some (if negative : bool then - n0 else n0)
                  | String _ _ => None
                  end
              | None => None
              end = Some n →
              ∃ r, scan_digits AtStart 0 0 s2 = Some r
                   ∧ skip_spaces r.2 = EmptyString) as Hgen.
    { intros negative s2 H.
      destruct (scan_digits AtStart 0 0 s2) as [[[n0 digits] rest]|]; [|discriminate].
      exists (n0, digits, rest). split; [reflexivity|].
      cbn [snd]. destruct (skip_spaces rest); [reflexivity | discriminate]. }
    destruct (Ascii.eqb c1 "+") eqn:Hplus.
    { apply Ascii.eqb_eq in Hplus. subst c1.
      exists s1. split; [|exact (Hgen false s1 Hint)].
      destruct Hin1 as [<-|Hin1]; auto. }
    destruct (Ascii.eqb c1 "-") eqn:Hminus.
    { apply Ascii.eqb_eq in Hminus. subst c1.
      exists s1. split; [|exact (Hgen true s1 Hint)].
      destruct Hin1 as [<-|Hin1]; auto. }
    exists (String c1 s1). split; [right; right; exact Hin1|].
    apply (Hgen false).
    destruct c1 as [[] [] [] [] [] [] [] []]; try exact Hint; discriminate. }
  destruct Hs2 as [->| [->|Hin2]]; [reflexivity..|].
  destruct r as [[n0 digits] rest].
  destruct (scan_digits_chars _ _ _ _ _ _ _ c Hscan Hin2) as [Hd|[->|Hin3]].
  - rewrite Hd, orb_true_r. reflexivity.
  - reflexivity.
  - rewrite (skip_spaces_all _ _ Hrest Hin3). reflexivity.
Qed.

(** A port text with any other character in it is refused. *)
Lemma str_to_int_refuses max_str_digits s c :
  In c (list_ascii_of_string s) →
  numeric_char c = false →
  str_to_int max_str_digits s = None.
Proof.
  intros Hin Hc. destruct (str_to_int max_str_digits s) as [n|] eqn:Hint; [|reflexivity].
  rewrite (str_to_int_chars _ _ _ _ Hint Hin) in Hc. discriminate.
Qed.


(** A decimal digit is a digit of the scanner, with the same value, and is
    neither white space, nor an underscore, a sign or a colon. *)
Lemma decimal_digit_is_digit c d :
  decimal_digit c = Some d →
  is_digit c = true ∧ digit_value c = d ∧ is_int_space c = false
  ∧ Ascii.eqb c "_" = false ∧ Ascii.eqb c "+" = false ∧ Ascii.eqb c "-" = false
  ∧ Ascii.eqb c ":" = false.
Proof.
  destruct c as [[] [] [] [] [] [] [] []]; intros H; vm_compute in H;
    try discriminate H; injection H as <-; repeat split; reflexivity.
Qed.

Lemma decimal_value_no_colon s n :
  decimal_value s = Some n → count_char ":" s = O.
Proof.
  revert n. induction s as [|c rest IH]; intros n Hn; [reflexivity|].
  cbn [decimal_value] in Hn.
  destruct (decimal_digit c) as [d|] eqn:Hd; [|discriminate].
  apply decimal_digit_is_digit in Hd as (_ & _ & _ & _ & _ & _ & Hcolon).
  cbn [count_char]. rewrite Hcolon.
  destruct rest as [|c' rest']; [reflexivity|].
  destruct (decimal_value (String c' rest')) as [v|] eqn:Hv; [|discriminate].
  exact (IH v eq_refl).
Qed.

(** The scanner, on a text of decimal digits, reads all of it and adds the
    number it writes to its running total, shifted by the text's length. *)
Lemma scan_digits_decimal s : ∀ n prev acc digits,
  decimal_value s = Some n →
  scan_digits prev acc digits s
  = Some (acc * 10 ^ Z.of_nat (String.length s) + n,
          (digits + String.length s)%nat, EmptyString).
Proof.
  induction s as [|c rest IH]; intros n prev acc digits Hn; [discriminate|].
  cbn [decimal_value] in Hn.
  destruct (decimal_digit c) as [d|] eqn:Hd; [|discriminate].
  apply decimal_digit_is_digit in Hd as (Hdigit & Hvalue & _).
  cbn [scan_digits]. rewrite Hdigit, Hvalue.
  destruct rest as [|c' rest'].
  - injection Hn as <-. cbn [scan_digits String.length].
    replace (10 * acc + d) with (acc * 10 ^ Z.of_nat 1 + d) by lia.
    replace (S digits) with (digits + 1)%nat by lia. reflexivity.
  - destruct (decimal_value (String c' rest')) as [v|] eqn:Hv; [|discriminate].
    injection Hn as <-. rewrite (IH v AfterDigit _ _ eq_refl).
    change (String.length (String c (String c' rest')))
      with (S (String.length (String c' rest'))).
    rewrite Nat2Z.inj_succ, Z.pow_succ_r by lia.
    replace ((10 * acc + d) * 10 ^ Z.of_nat (String.length (String c' rest')) + v)
      with (acc * (10 * 10 ^ Z.of_nat (String.length (String c' rest')))
            + (d * 10 ^ Z.of_nat (String.length (String c' rest')) + v)) by lia.
    replace (S digits + String.length (String c' rest'))%nat
      with (digits + S (String.length (String c' rest')))%nat by lia.
    reflexivity.
Qed.

(** [int] of a text of at most 640 decimal digits is the number the text
    writes, whatever the limit on the length of numerals. *)
Lemma str_to_int_decimal max_str_digits s n :
  decimal_value s = Some n →
  (String.length s ≤ 640)%nat →
  str_to_int max_str_digits s = Some n.
Proof.
  intros Hn Hlen. unfold str_to_int.
  destruct s as [|c rest]; [discriminate|].
  pose proof Hn as Hc. cbn [decimal_value] in Hc.
  destruct (decimal_digit c) as [d|] eqn:Hd; [|discriminate]. clear Hc.
  apply decimal_digit_is_digit in Hd as (_ & _ & Hspace & _ & Hplus & Hminus & _).
  cbn [skip_spaces]. rewrite Hspace.
  assert (match String c rest with
          | String "+" rest0 => (false, rest0)
          | String "-" rest0 => (true, rest0)
          | _ => (false, String c rest)
          end = (false, String c rest)) as ->.
  { destruct c as [[] [] [] [] [] [] [] []]; try reflexivity; discriminate. }
  rewrite (scan_digits_decimal _ _ _ _ _ Hn). cbn [skip_spaces].
  unfold too_many_digits, max_str_digits_threshold.
  replace (640 <? 0 + String.length (String c rest))%nat with false
    by (symmetry; apply Nat.ltb_ge; lia).
  cbn [andb]. reflexivity.
Qed.

End IntFacts.

(** ** What every run keeps *)

Section Invariants.
Context {W : Type} (env : Collaborators W) (max_str_digits : nat).
Variable R : state W → state W → Prop.
Hypothesis R_refl : ∀ s, R s s.
Hypothesis R_trans : ∀ s1 s2 s3, R s1 s2 → R s2 s3 → R s1 s3.

Lemma keeps_lift {A : Type} (r : result A) : keeps R (lift r : M (state W) A).
Proof. intros s. apply R_refl. Qed.

Lemma keeps_ret {A : Type} (a : A) : keeps R (mret a : M (state W) A).
Proof. intros s. apply R_refl. Qed.

Lemma keeps_gets {A : Type} (f : state W → A) : keeps R (gets f).
Proof. intros s. apply R_refl. Qed.

Lemma keeps_bind {A B : Type} (m : M (state W) A) (f : A → M (state W) B) :
  keeps R m → (∀ a, keeps R (f a)) → keeps R (m ≫= f).
Proof.
  intros Hm Hf s. rewrite bind_run. specialize (Hm s).
  destruct (m s) as [[a|e] s1]; cbn [snd] in *; [|exact Hm].
  eapply R_trans; [exact Hm | apply Hf].
Qed.

Lemma keeps_retry {A : Type} (op : M (state W) A) n tol :
  keeps R op → keeps R (retry op n tol).
Proof.
  intros Hop. induction n as [|n IH]; intros s; [apply R_refl|].
  rewrite retry_succ. specialize (Hop s).
  destruct (op s) as [[a|e] s1]; cbn [snd] in *; [exact Hop|].
  destruct (bool_decide (e ∈ tol)); [|exact Hop].
  eapply R_trans; [exact Hop | apply IH].
Qed.

Lemma keeps_http_call req : keeps R (send env req) → keeps R (http_call env req).
Proof.
  intros Hsend. apply keeps_bind; [exact Hsend|].
  intros [r| |e]; [destruct (is_2xx (status_code r))|..];
    first [apply keeps_ret | apply keeps_lift].
Qed.

Lemma keeps_kubectl_get context namespace type name :
  keeps R (query env (mkQuery context namespace type name)) →
  keeps R (kubectl_get env context namespace type name).
Proof.
  intros Hq. apply keeps_bind; [exact Hq|].
  intros [r| |e]; first [apply keeps_ret | apply keeps_lift].
Qed.

Lemma keeps_kubectl_get_or_none context namespace type name :
  keeps R (query env (mkQuery context namespace type name)) →
  keeps R (kubectl_get_or_none env context namespace type name).
Proof.
  intros Hq. apply keeps_bind; [exact Hq|].
  intros [r| |e]; first [apply keeps_ret | apply keeps_lift].
Qed.


Ltac keeps_steps :=
  repeat first
    [ apply keeps_http_call
    | apply keeps_kubectl_get
    | apply keeps_kubectl_get_or_none
    | apply keeps_retry
    | apply keeps_gets
    | apply keeps_lift
    | apply keeps_ret
    | match goal with |- keeps _ (let '(_, _) := ?p in _) => destruct p end
    | apply keeps_bind; [|intros ?] ].

Ltac keeps_whole :=
  match goal with
  | |- ?R ?s (?m ?s).2 =>
      let H := fresh "Hkeeps" in enough (keeps R m) as H by apply H
  end.

Lemma create_keeps image s :
  (∀ req, keeps R (send env req)) →
  (∀ context, keeps R (query env (mkQuery context None "environment"
                        (environment_name (organization_id (st_config s)))))) →
  (∀ context, keeps R (query env (mkQuery context None "environmentassignment"
                        (assignment_id (organization_id (st_config s)))))) →
  R s (create_environment_assignment env image s).2.
Proof.
  intros Hsend Henv Hasg. unfold create_environment_assignment.
  rewrite bind_run, gets_run. cbv beta iota zeta.
  keeps_whole. unfold kubectl_get_retry, patch.
  keeps_steps; first [apply Hsend | apply Henv | apply Hasg].
Qed.

Lemma wait_keeps s :
  (∀ req, keeps R (send env req)) →
  (∀ address timeout, keeps R (wait_for_connectable env address timeout)) →
  R s (wait_for_environmentd env max_str_digits s).2.
Proof.
  intros Hsend Hconnect. keeps_whole.
  unfold wait_for_environmentd, get_environment, get.
  keeps_steps; first [apply Hsend | apply Hconnect].
Qed.

Lemma delete_keeps s :
  (∀ req, keeps R (send env req)) →
  (∀ context, keeps R (query env (mkQuery context None "namespace"
                        (environment_name (organization_id (st_config s)))))) →
  (∀ context, keeps R (query env (mkQuery context None "environment"
                        (environment_name (organization_id (st_config s)))))) →
  (∀ context, keeps R (query env (mkQuery context None "environmentassignment"
                        (assignment_id (organization_id (st_config s)))))) →
  R s (delete_environment_assignment env s).2.
Proof.
  intros Hsend Hns Henv Hasg. unfold delete_environment_assignment.
  rewrite bind_run, gets_run. cbv beta iota zeta.
  keeps_whole. unfold delete_environment, delete.
  keeps_steps; first [apply Hsend | apply Hns | apply Henv | apply Hasg].
Qed.

End Invariants.

Section InvariantInstances.
Context {W : Type} (env : Collaborators W).

Lemma same_config_refl (s : state W) : same_config s s.
Proof. reflexivity. Qed.

Lemma same_config_trans (s1 s2 s3 : state W) :
  same_config s1 s2 → same_config s2 s3 → same_config s1 s3.
Proof. unfold same_config. congruence. Qed.

Lemma query_same_config q : keeps same_config (query env q).
Proof.
  intros s. unfold query. destruct (resource_store env q (st_world s)). reflexivity.
Qed.

Lemma connect_same_config address timeout :
  keeps same_config (wait_for_connectable env address timeout).
Proof.
  intros s. unfold wait_for_connectable.
  destruct (prober env address.1 address.2 timeout (st_world s)) as [[|e] w'];
    reflexivity.
Qed.

Lemma send_same_config req :
  http_keeps_config env → keeps same_config (send env req).
Proof.
  intros Hframe s. unfold send. specialize (Hframe req (st_config s) (st_world s)).
  destruct (region_api env req (st_config s) (st_world s)) as [[ans config'] w'].
  exact Hframe.
Qed.

Lemma logs_only_refl P (s : state W) : logs_only P s s.
Proof. exists []. rewrite app_nil_r. split; [reflexivity | constructor]. Qed.

Lemma logs_only_trans P (s1 s2 s3 : state W) :
  logs_only P s1 s2 → logs_only P s2 s3 → logs_only P s1 s3.
Proof.
  intros (new1 & H1 & HP1) (new2 & H2 & HP2). exists (new1 ++ new2).
  split; [rewrite H2, H1, app_assoc; reflexivity | apply Forall_app; auto].
Qed.

Lemma send_logs_only (P : event → Prop) req :
  (∀ ans, P (EHttp req ans)) → keeps (logs_only P) (send env req).
Proof.
  intros HP s. unfold send.
  destruct (region_api env req (st_config s) (st_world s)) as [[ans config'] w'].
  exists [EHttp req ans]. split; [reflexivity | repeat constructor; apply HP].
Qed.

Lemma query_logs_only (P : event → Prop) q :
  (∀ ans, P (EKubectl q ans)) → keeps (logs_only P) (query env q).
Proof.
  intros HP s. unfold query.
  destruct (resource_store env q (st_world s)) as [ans w'].
  exists [EKubectl q ans]. split; [reflexivity | repeat constructor; apply HP].
Qed.

End InvariantInstances.


(** ** Every run of the controller *)

Section RunFacts.
Context {St : Type}.

Lemma bind_inv_ok {A B : Type} (m : M St A) (f : A → M St B) s b s' :
  (m ≫= f) s = (Ok b, s') →
  ∃ a s1, m s = (Ok a, s1) ∧ f a s1 = (Ok b, s').
Proof.
  rewrite bind_run. destruct (m s) as [[a|e] s1]; [eauto | discriminate].
Qed.

Lemma retry_ok_inv {A : Type} (op : M St A) tol n : ∀ s a s',
  retry op n tol s = (Ok a, s') → ∃ s0, op s0 = (Ok a, s').
Proof.
  induction n as [|n IH]; intros s a s' H; [discriminate|].
  rewrite retry_succ in H. destruct (op s) as [[a0|e] s1] eqn:Hop.
  - exists s. rewrite Hop. exact H.
  - destruct (bool_decide (e ∈ tol)); [eapply IH; exact H | discriminate].
Qed.

End RunFacts.

Section LogFacts.
Context {W : Type} (env : Collaborators W).

(** A retry loop over an operation that logs one entry per attempt logs at
    most as many entries as its budget, and at least one when it has any
    budget; a success it returns is the success of its last attempt. *)
Lemma retry_log {A : Type} (op : M (state W) A) (Q : event → Prop) tol n :
  (∀ s, ∃ e, st_trace (op s).2 = st_trace s ++ [e] ∧ Q e) →
  ∀ s, ∃ l,
    st_trace (retry op n tol s).2 = st_trace s ++ l
    ∧ (length l ≤ n)%nat ∧ Forall Q l ∧ (n ≠ O → l ≠ []).
Proof.
  intros Hop. induction n as [|n IH]; intros s.
  - exists []. rewrite app_nil_r. repeat split; [reflexivity | constructor | congruence].
  - rewrite retry_succ. destruct (Hop s) as (e & He & HQ).
    destruct (op s) as [[a|x] s1]; cbn [snd] in *.
    + exists [e]. repeat split; [exact He | cbn; lia | repeat constructor; exact HQ
                                | discriminate].
    + destruct (bool_decide (x ∈ tol)).
      * destruct (IH s1) as (l & Hl & Hlen & HQl & _).
        exists (e :: l). rewrite Hl, He, <- app_assoc.
        repeat split; [cbn; lia | constructor; assumption | discriminate].
      * exists [e]. repeat split; [exact He | cbn; lia | repeat constructor; exact HQ
                                  | discriminate].
Qed.

(** One probe, whatever the region API client does to the configuration. *)
Lemma probe_run_any config w tr ans config' w1 :
  region_api env (probe_request config) config w = (ans, config', w1) →
  get_environment env (mkState config w tr)
  = (match ans with
     | Responded r =>
         if is_2xx (status_code r) then
           match body r with
           | Some payload =>
               if not_ready payload then Raise AssertionError
               else if ready payload then Ok r
               else Raise AttributeError
           | None => Raise JSONDecodeError
           end
         else Raise HTTPError
     | TransportFailure => Raise HTTPError
     | Crashed e => Raise e
     end, mkState config' w1 (tr ++ [EHttp (probe_request config) ans])).
Proof.
  intros Hget. unfold get_environment. run_gets.
  rewrite bind_run. unfold get.
  rewrite (http_call_run env _ _ _ _ _ _ _ Hget).
  destruct ans as [r| |e]; try reflexivity.
  destruct (is_2xx (status_code r)); [|reflexivity]. tidy.
  unfold response_json.
  destruct (body r) as [payload|]; [|reflexivity].
  destruct payload as [| | | | | |m]; try reflexivity.
  run_lift. rewrite probe_assertions. unfold not_ready, ready.
  destruct (dict_get m "regionInfo") as [| b | n | f | a | l | region_info];
    cbn [negb]; try (destruct (truthy _); reflexivity).
  rewrite <- !negb_andb.
  destruct (truthy (JObj region_info) && truthy (dict_get region_info "resolvable")
            && truthy (dict_get region_info "sqlAddress")); reflexivity.
Qed.

Lemma ready_iff payload :
  ready payload = true ↔ ∃ sql_address, ready_with payload sql_address.
Proof.
  unfold ready, ready_with. split.
  - destruct payload as [| | | | | |m]; try discriminate.
    unfold dict_get at 1.
    destruct (m !! "regionInfo") as [[| | | | | |region_info]|] eqn:Hinfo;
      try discriminate.
    cbn [default]. intros H.
    apply andb_true_iff in H as [H Hsql]. apply andb_true_iff in H as [_ Hres].
    unfold dict_get in Hsql.
    destruct (region_info !! "sqlAddress") as [sql|] eqn:Hlookup; [|discriminate].
    exists sql, m, region_info. auto.
  - intros (sql & m & region_info & -> & Hinfo & Hres & Hsql & Htruthy).
    assert (dict_get m "regionInfo" = JObj region_info) as ->
      by (unfold dict_get; rewrite Hinfo; reflexivity).
    assert (dict_get region_info "sqlAddress" = sql) as ->
      by (unfold dict_get; rewrite Hsql; reflexivity).
    rewrite Hres, Htruthy, !andb_true_r. cbn [truthy]. apply negb_true_iff, bool_decide_eq_false.
    intros ->. rewrite lookup_empty in Hsql. discriminate.
Qed.

Lemma ready_not_not_ready payload : ready payload = true → not_ready payload = false.
Proof.
  unfold ready, not_ready. destruct payload as [| | | | | |m]; try discriminate.
  destruct (dict_get m "regionInfo"); try discriminate.
  intros H. rewrite <- !negb_andb, H. reflexivity.
Qed.

Lemma probe_logs_one s :
  ∃ e, st_trace (get_environment env s).2 = st_trace s ++ [e] ∧ is_probe e.
Proof.
  destruct s as [config w tr].
  destruct (region_api env (probe_request config) config w) as [[ans config'] w1] eqn:Hget.
  rewrite (probe_run_any _ _ _ _ _ _ Hget). cbn [snd st_trace].
  eexists. split; [reflexivity|]. eexists _, _. reflexivity.
Qed.

Lemma probe_ok_inv s r s' :
  get_environment env s = (Ok r, s') →
  ∃ payload sql_address, body r = Some payload ∧ ready_with payload sql_address.
Proof.
  destruct s as [config w tr].
  destruct (region_api env (probe_request config) config w) as [[ans config'] w1] eqn:Hget.
  rewrite (probe_run_any _ _ _ _ _ _ Hget). intros H.
  destruct ans as [r0| |e]; try discriminate.
  destruct (is_2xx (status_code r0)); [|discriminate].
  destruct (body r0) as [payload|] eqn:Hbody; [|discriminate].
  destruct (not_ready payload); [discriminate|].
  destruct (ready payload) eqn:Hready; [|discriminate].
  injection H as <- _. apply ready_iff in Hready as (sql & Hsql).
  exists payload, sql. auto.
Qed.

End LogFacts.

Section WaitFacts.
Context {W : Type} (env : Collaborators W) (max_str_digits : nat).

Lemma probe_ok_log s r s' :
  get_environment env s = (Ok r, s') →
  ∃ base_url,
    st_trace s'
    = st_trace s ++ [EHttp (mkRequest GET base_url "/api/region" None None) (Responded r)].
Proof.
  destruct s as [config w tr].
  destruct (region_api env (probe_request config) config w) as [[ans config'] w1] eqn:Hget.
  rewrite (probe_run_any env _ _ _ _ _ _ Hget). intros H.
  destruct ans as [r0| |e]; try discriminate.
  destruct (is_2xx (status_code r0)); [|discriminate].
  destruct (body r0) as [payload|]; [|discriminate].
  destruct (not_ready payload); [discriminate|].
  destruct (ready payload); [|discriminate].
  injection H as <- <-. exists (region_api_base_url config). reflexivity.
Qed.

(** What the connectivity probe logs, and that it returns only when the
    endpoint accepted the connection. *)
Lemma wait_for_connectable_log host port timeout (s : state W) :
  ∃ ans,
    st_trace (wait_for_connectable env (host, port) timeout s).2
    = st_trace s ++ [EConnect host port timeout ans]
    ∧ ((wait_for_connectable env (host, port) timeout s).1 = Ok tt → ans = Connected).
Proof.
  unfold wait_for_connectable. cbn [fst snd].
  destruct (prober env host port timeout (st_world s)) as [ans w'].
  exists ans. destruct ans; cbn; split; (reflexivity || discriminate || auto).
Qed.

(** A step that evaluates an expression leaves the store alone: what holds
    of the store holds after it, and is to be shown of what follows. *)
Lemma lift_bind_post {A B : Type} (Φ : state W → Prop) (x : result A)
    (k : A → M (state W) B) (s : state W) :
  Φ s → (∀ a, Φ (k a s).2) → Φ ((lift x ≫= k) s).2.
Proof.
  intros Hs Hk. rewrite bind_run, lift_run. destruct x as [a|e]; [apply Hk | exact Hs].
Qed.

End WaitFacts.

Section StoreFacts.
Context {W : Type} (env : Collaborators W).

(** A success of a retry loop over an operation that logs one entry per
    attempt is logged last. *)
Lemma retry_log_last {A : Type} (op : M (state W) A) (Qok : A → event → Prop) tol n :
  (∀ s, ∃ e, st_trace (op s).2 = st_trace s ++ [e]
             ∧ ∀ a, (op s).1 = Ok a → Qok a e) →
  ∀ s a, (retry op n tol s).1 = Ok a →
    ∃ l e, st_trace (retry op n tol s).2 = st_trace s ++ l ++ [e] ∧ Qok a e.
Proof.
  intros Hop. induction n as [|n IH]; intros s a; [discriminate|].
  rewrite retry_succ. destruct (Hop s) as (e & He & Hok).
  destruct (op s) as [[a0|x] s1]; cbn [fst snd] in *.
  - intros [= <-]. exists [], e. split; [exact He | auto].
  - destruct (bool_decide (x ∈ tol)); [|discriminate].
    intros Hretry. destruct (IH s1 a Hretry) as (l & e' & Hl & He').
    exists (e :: l), e'. rewrite Hl, He, <- !app_assoc. auto.
Qed.

Lemma Forall_fmap_ex {A B : Type} (f : A → B) (l : list B) :
  Forall (λ b, ∃ a, b = f a) l → ∃ l', l = f <$> l'.
Proof.
  induction 1 as [|b l (a & ->) _ (l' & ->)]; [exists []; reflexivity|].
  exists (a :: l'). reflexivity.
Qed.

Lemma kubectl_get_any context namespace type name (s : state W) :
  let q := mkQuery context namespace type name in
  kubectl_get env context namespace type name s
  = let '(ans, w') := resource_store env q (st_world s) in
    (match ans with
     | Found resource => Ok resource
     | NotFound => Raise ResourceNotFound
     | KubectlFailed e => Raise e
     end, mkState (st_config s) w' (st_trace s ++ [EKubectl q ans])).
Proof.
  intros q. destruct s as [config w tr]. cbn [st_world st_config st_trace].
  destruct (resource_store env q w) as [ans w'] eqn:Hq.
  apply (kubectl_get_run env _ _ _ _ _ _ _ _ _ Hq).
Qed.

Lemma kubectl_get_logs_one context namespace type name (s : state W) :
  ∃ e, st_trace (kubectl_get env context namespace type name s).2 = st_trace s ++ [e]
       ∧ ∃ ans, e = EKubectl (mkQuery context namespace type name) ans.
Proof.
  rewrite kubectl_get_any.
  destruct (resource_store env _ (st_world s)) as [ans w'].
  eexists. split; [reflexivity | eauto].
Qed.

Lemma kubectl_get_ok_log context namespace type name (s : state W) resource s' :
  kubectl_get env context namespace type name s = (Ok resource, s') →
  st_trace s'
  = st_trace s ++ [EKubectl (mkQuery context namespace type name) (Found resource)]
  ∧ st_config s' = st_config s.
Proof.
  rewrite kubectl_get_any.
  destruct (resource_store env _ (st_world s)) as [[r| |e] w']; intros H;
    try discriminate H.
  injection H as <- <-. split; reflexivity.
Qed.

Lemma kubectl_get_keeps_config context namespace type name :
  keeps same_config (kubectl_get env context namespace type name).
Proof.
  apply (keeps_kubectl_get env same_config same_config_refl same_config_trans).
  apply query_same_config.
Qed.

(** The poll of [create_environment_assignment], on every run. *)
Lemma poll_log context name n (s : state W) :
  let q := mkQuery context None "environment" name in
  let run := kubectl_get_retry env context None "environment" name n s in
  ∃ answers,
    st_trace run.2 = st_trace s ++ (EKubectl q <$> answers)
    ∧ (length answers ≤ n)%nat
    ∧ st_config run.2 = st_config s
    ∧ (∀ resource, run.1 = Ok resource → last answers = Some (Found resource)).
Proof.
  intros q run. subst run. unfold kubectl_get_retry.
  destruct (retry_log (kubectl_get env context None "environment" name)
              (λ e, ∃ ans, e = EKubectl q ans) [ResourceNotFound] n
              (kubectl_get_logs_one context None "environment" name) s)
    as (l & Hlog & Hlen & Hl & _).
  apply Forall_fmap_ex in Hl as (answers & ->).
  rewrite length_fmap in Hlen.
  exists answers. split; [exact Hlog|]. split; [exact Hlen|]. split.
  - apply (keeps_retry same_config same_config_refl same_config_trans).
    apply kubectl_get_keeps_config.
  - intros resource Hok.
    destruct (retry_log_last (kubectl_get env context None "environment" name)
                (λ a e, e = EKubectl q (Found a)) [ResourceNotFound] n) with
      (s := s) (a := resource) as (l & e & Hl & ->); [|exact Hok|].
    { intros s0. rewrite kubectl_get_any.
      destruct (resource_store env _ (st_world s0)) as [[r| |x] w'];
        eexists; (split; [reflexivity|]); intros a0 [= <-]; reflexivity. }
    rewrite Hlog in Hl. apply app_inv_head in Hl.
    destruct answers as [|a answers _] using rev_ind.
    + destruct l; discriminate Hl.
    + rewrite fmap_app in Hl. apply app_inj_tail in Hl as [_ [= ->]].
      rewrite last_snoc. reflexivity.
Qed.
End StoreFacts.

Section DeleteRunFacts.
Context {W : Type} (env : Collaborators W).

(** One attempt of the DELETE, whatever the region API client does to the
    configuration. *)
Lemma delete_attempt_any (s : state W) :
  delete_environment env s
  = let '(ans, config', w') :=
      region_api env (delete_request (st_config s)) (st_config s) (st_world s) in
    (match ans with
     | Responded r => if is_2xx (status_code r) then Ok tt else Raise HTTPError
     | TransportFailure => Raise HTTPError
     | Crashed e => Raise e
     end, mkState config' w' (st_trace s ++ [delete_event (st_config s) ans])).
Proof.
  destruct s as [config w tr]. cbn [st_config st_world st_trace].
  destruct (region_api env (delete_request config) config w) as [[ans config'] w']
    eqn:Hdel.
  unfold delete_environment. run_gets.
  rewrite bind_run. unfold delete.
  rewrite (http_call_run env _ _ _ _ _ _ _ Hdel).
  destruct ans as [r| |e]; try reflexivity.
  destruct (is_2xx (status_code r)); reflexivity.
Qed.

Lemma delete_attempt_logs_one (s : state W) :
  ∃ e, st_trace (delete_environment env s).2 = st_trace s ++ [e] ∧ is_delete e.
Proof.
  rewrite delete_attempt_any.
  destruct (region_api env _ (st_config s) (st_world s)) as [[ans config'] w'].
  eexists. split; [reflexivity|]. eexists _, _. reflexivity.
Qed.

Lemma delete_attempt_ok_log (s : state W) :
  ∃ e, st_trace (delete_environment env s).2 = st_trace s ++ [e]
       ∧ ∀ u : unit, (delete_environment env s).1 = Ok u →
           ∃ base_url r,
             e = EHttp (mkRequest DELETE base_url "/api/region" None (Some 305))
                       (Responded r)
             ∧ is_2xx (status_code r) = true.
Proof.
  rewrite delete_attempt_any.
  destruct (region_api env _ (st_config s) (st_world s)) as [[ans config'] w'].
  eexists. split; [reflexivity|]. cbn [fst]. intros u H.
  destruct ans as [r| |e]; try discriminate H.
  destruct (is_2xx (status_code r)) eqn:Hstatus; [|discriminate H].
  eexists _, r. split; [reflexivity | exact Hstatus].
Qed.

(** The three absence checks that follow an accepted DELETE, by the answers
    of the resource store, whatever the configuration has become. *)
Lemma delete_checks_any (s : state W) config0 w0 tr0 a1 a2 a3 w1 w2 w3 :
  retry (delete_environment env) 10 [HTTPError] s
  = (Ok tt, mkState config0 w0 tr0) →
  let org := organization_id (st_config s) in
  let q1 := mkQuery (environment_context config0) None "namespace"
              (environment_name org) in
  let q2 := mkQuery (environment_context config0) None "environment"
              (environment_name org) in
  let q3 := mkQuery (system_context config0) None "environmentassignment"
              (assignment_id org) in
  resource_store env q1 w0 = (a1, w1) →
  resource_store env q2 w1 = (a2, w2) →
  resource_store env q3 w2 = (a3, w3) →
  let c1 := EKubectl q1 a1 in
  let c2 := EKubectl q2 a2 in
  let c3 := EKubectl q3 a3 in
  delete_environment_assignment env s
  = match a1 with
    | Found _ => (Raise AssertionError, mkState config0 w1 (tr0 ++ [c1]))
    | KubectlFailed e => (Raise e, mkState config0 w1 (tr0 ++ [c1]))
    | NotFound =>
        match a2 with
        | Found _ => (Raise AssertionError, mkState config0 w2 (tr0 ++ [c1; c2]))
        | KubectlFailed e => (Raise e, mkState config0 w2 (tr0 ++ [c1; c2]))
        | NotFound =>
            match a3 with
            | Found _ =>
                (Raise AssertionError, mkState config0 w3 (tr0 ++ [c1; c2; c3]))
            | KubectlFailed e => (Raise e, mkState config0 w3 (tr0 ++ [c1; c2; c3]))
            | NotFound => (Ok tt, mkState config0 w3 (tr0 ++ [c1; c2; c3]))
            end
        end
    end.
Proof.
  intros Hretry org q1 q2 q3 H1 H2 H3 c1 c2 c3. subst c1 c2 c3 q1 q2 q3 org.
  unfold delete_environment_assignment. run_gets.
  rewrite (bind_ok _ _ _ _ _ Hretry). run_gets.
  rewrite bind_run.
  rewrite (kubectl_get_or_none_run env _ _ _ _ _ _ _ _ _ H1).
  destruct a1 as [resource1| |e1]; try reflexivity. tidy.
  run_lift. run_gets. rewrite bind_run.
  rewrite (kubectl_get_or_none_run env _ _ _ _ _ _ _ _ _ H2).
  rewrite <- app_assoc.
  destruct a2 as [resource2| |e2]; try reflexivity. tidy.
  run_lift. run_gets. rewrite bind_run.
  rewrite (kubectl_get_or_none_run env _ _ _ _ _ _ _ _ _ H3).
  rewrite <- app_assoc.
  destruct a3 as [resource3| |e3]; reflexivity.
Qed.

End DeleteRunFacts.

(** ** The statements of [Schema] *)

Section SchemaFacts.

Lemma last_char_append a b :
  b ≠ EmptyString → last_char (a +:+ b) = last_char b.
Proof.
  intros Hb. induction a as [|c a IH]; [reflexivity|].
  rewrite <- IH.
  change (String c a +:+ b) with (String c (a +:+ b)).
  destruct (a +:+ b) eqn:E; [|reflexivity].
  destruct a; [cbn in E; contradiction | discriminate].
Qed.

Lemma length_append a b :
  String.length (a +:+ b) = (String.length a + String.length b)%nat.
Proof.
  induction a as [|x a IH]; [reflexivity|].
  change (S (String.length (a +:+ b)) = S (String.length a + String.length b)).
  rewrite IH. reflexivity.
Qed.

Lemma append_inj_r a b c : a +:+ c = b +:+ c → a = b.
Proof.
  revert b. induction a as [|x a IH]; intros [|y b] H.
  - reflexivity.
  - exfalso. apply (f_equal String.length) in H.
    rewrite !length_append in H. cbn in H. lia.
  - exfalso. apply (f_equal String.length) in H.
    rewrite !length_append in H. cbn in H. lia.
  - cbn in H. injection H as -> H. f_equal. apply IH, H.
Qed.

Lemma append_inj_l a b c : a +:+ b = a +:+ c → b = c.
Proof. induction a as [|x a IH]; cbn; [auto|]. intros H. injection H as H. auto. Qed.

Lemma TransactionIsolation_str_inj a b :
  TransactionIsolation_str a = TransactionIsolation_str b → a = b.
Proof. destruct a, b; (reflexivity || discriminate). Qed.

Lemma connect_sqls_cases self :
  connect_sqls self
  = ["SET SCHEMA = " +:+ schema self +:+ ";"]
    ++ match cluster_name self with
       | Some name => ["SET cluster_name = " +:+ name +:+ ";"]
       | None => []
       end
    ++ match transaction_isolation self with
       | Some isolation =>
           ["SET transaction_isolation = '" +:+ TransactionIsolation_str isolation
            +:+ "';"]
       | None => []
       end.
Proof.
  unfold connect_sqls.
  destruct (cluster_name self), (transaction_isolation self); reflexivity.
Qed.

Lemma init_sqls_cases self :
  init_sqls self
  = connect_sqls self
    ++ ["DROP SCHEMA IF EXISTS " +:+ schema self +:+ " CASCADE;";
        "CREATE SCHEMA " +:+ schema self +:+ ";";
        "DROP TABLE IF EXISTS t1;";
        "CREATE TABLE t1 (f1 INTEGER DEFAULT 1);";
        "INSERT INTO t1 DEFAULT VALUES;"]
    ++ (if create_index self then ["CREATE INDEX i1 ON t1 (f1);"] else []).
Proof.
  unfold init_sqls. destruct (source self), (create_index self);
    cbv zeta; rewrite <- ?app_assoc; reflexivity.
Qed.

End SchemaFacts.
(** ** The properties of the specification *)

(** *** The retry engine *)

Section RetryClaims.
Context {St A : Type}.

(** C5.  Whatever the operation, the budget and the tolerated kinds: when
    an invocation inside [retry] fails with a kind that is not tolerated
    (its [k] predecessors having failed in tolerated ways, within the
    budget), [retry] ends with that very failure, and the operation has been
    invoked [k + 1] times, not once more. *)
Theorem retry_propagates_untolerated_at_once
    (operation : M St A) (budget : nat) (tolerated : list exn) (s : St) (k : nat) (e : exn) :
  (k < budget)%nat →
  (∀ i, (i < k)%nat →
        ∃ e', (operation (after operation i s)).1 = Raise e' ∧ e' ∈ tolerated) →
  (operation (after operation k s)).1 = Raise e →
  e ∉ tolerated →
  retry (counted operation) budget tolerated (s, O)
  = (Raise e, (after operation (S k) s, S k)).
Proof.
  intros Hk Hfail He Hnot.
  replace budget with (k + S (budget - S k))%nat by lia.
  rewrite (retry_after _ _ _ _ _ (counted_fails _ _ _ _ Hfail)).
  rewrite after_counted.
  assert (after operation (S k) s = (operation (after operation k s)).2) as ->.
  { clear. revert s. induction k as [|k IH]; intros s; [reflexivity|].
    cbn [after]. cbn [after] in IH. apply IH. }
  apply retry_fatal; [|exact Hnot].
  rewrite counted_run, He. f_equal. f_equal. lia.
Qed.

(** C6.  Whatever the budget [N]: on an operation that fails with a
    tolerated kind every time, [retry] raises [RetryExhausted], and the
    operation has been invoked exactly [N] times. *)
Theorem retry_exhausted_after_budget
    (operation : M St A) (budget : nat) (tolerated : list exn) (s : St) :
  (∀ s', ∃ e, (operation s').1 = Raise e ∧ e ∈ tolerated) →
  retry (counted operation) budget tolerated (s, O)
  = (Raise RetryExhausted, (after operation budget s, budget)).
Proof.
  intros Hfail.
  replace budget with (budget + 0)%nat at 1 by lia.
  rewrite (retry_after _ _ _ _ _
             (counted_fails _ _ _ _ (λ i _, Hfail (after operation i s)))).
  rewrite after_counted. cbn [retry]. unfold lift. f_equal. f_equal. lia.
Qed.
End RetryClaims.

(** *** The lifecycle controller *)

Section Claims.
Context {W : Type} (env : Collaborators W) (max_str_digits : nat).

(** C1.  [wait_for_environmentd] polls the region API with GET probes.  A
    2xx answer whose payload lacks [regionInfo], or whose [resolvable] is not
    truthy, or that lacks [sqlAddress], uses up one of 600 attempts and is
    followed by the next probe; 600 such answers in a row end the operation
    with [RetryExhausted] after exactly 600 probes.  When a probe succeeds
    before that, the operation splits the [sqlAddress] of its payload at the
    colon, probes connectivity of that host and port with a bound of 300
    seconds, and returns the payload: whatever the text [host] without a
    colon and the text [port_text] of decimal digits, on the address
    [host:port_text] the probe goes to [host] and to the port number
    [port_text] writes.  The log holds the probes and the one connectivity
    probe, nothing else.  A probe that fails with any kind other than
    [AssertionError] ends the operation with that failure at once. *)
Theorem wait_for_environmentd_polls_then_probes config w tr (pending : list Response) :
  Forall (λ r, not_ready_response r = true) pending →
  (∀ w',
     length pending = 600%nat →
     plays env config w (probe_event config <$> pending) w' →
     wait_for_environmentd env max_str_digits (mkState config w tr)
     = (Raise RetryExhausted,
        mkState config w' (tr ++ (probe_event config <$> pending))))
  ∧ (∀ w' last payload host port_text port,
       (length pending < 600)%nat →
       is_2xx (status_code last) = true →
       body last = Some payload →
       ready_with payload (JStr (host +:+ ":" +:+ port_text)) →
       count_char ":" host = O →
       decimal_value port_text = Some port →
       (String.length port_text ≤ 640)%nat →
       let script :=
         (probe_event config <$> pending)
         ++ [probe_event config last; EConnect host port 300 Connected] in
       plays env config w script w' →
       wait_for_environmentd env max_str_digits (mkState config w tr)
       = (Ok payload, mkState config w' (tr ++ script)))
  ∧ (∀ w1 e s2,
       (length pending < 600)%nat →
       plays env config w (probe_event config <$> pending) w1 →
       get_environment env
         (mkState config w1 (tr ++ (probe_event config <$> pending)))
       = (Raise e, s2) →
       e ≠ AssertionError →
       wait_for_environmentd env max_str_digits (mkState config w tr)
       = (Raise e, s2)).
Proof.
  intros Hpending. split; [|split].
  - intros w' Hlen Hplay. unfold wait_for_environmentd.
    apply bind_raise.
    replace 600%nat with (length pending + 0)%nat by lia.
    rewrite (poll_pending env config pending _ w w' tr Hpending Hplay).
    reflexivity.
  - intros w' last payload host port_text port Hlen Hstatus Hbody Hready
      Hhost Hport Hdigits script Hplay. subst script.
    change [probe_event config last; EConnect host port 300 Connected]
      with ([probe_event config last] ++ [EConnect host port 300 Connected]) in *.
    rewrite app_assoc in Hplay.
    apply plays_app in Hplay as (w1 & Hplay1 & Hplay2).
    apply plays_connect_inv in Hplay2 as (w2 & Hprobe & Hnil).
    apply plays_nil_inv in Hnil. subst w2.
    rewrite (wait_after_ready env max_str_digits _ _ _ _ _
               (poll_until_ready env _ _ _ _ _ _ _ tr Hpending Hlen Hstatus Hbody Hready Hplay1)
               Hbody Hready).
    cbn [py_split].
    change (host +:+ ":" +:+ port_text) with (host +:+ String ":" port_text).
    rewrite (str_split_join _ _ _ Hhost (decimal_value_no_colon _ _ Hport)).
    cbn [unpack2].
    unfold py_int. rewrite (str_to_int_decimal max_str_digits _ _ Hport Hdigits).
    rewrite (wait_for_connectable_run env _ _ _ _ _ _ _ _ Hprobe).
    rewrite <- !app_assoc. reflexivity.
  - intros w1 e s2 Hlen Hplay Hprobe Hne. unfold wait_for_environmentd.
    apply bind_raise.
    replace 600%nat with (length pending + S (599 - length pending))%nat by lia.
    rewrite (poll_pending env config pending _ w w1 tr Hpending Hplay).
    apply retry_fatal; [exact Hprobe|].
    intros Hin. apply list_elem_of_singleton in Hin. contradiction.
Qed.

(** C2.  When the region API answers the PATCH with a response that is not
    2xx (HTTP 500, say), [create_environment_assignment] raises [HTTPError]
    and the log holds that one PATCH and nothing else: no second PATCH, no
    poll of the resource store, no fetch of the environmentassignment. *)
Theorem create_stops_at_rejected_patch image config w tr r config' w' :
  region_api env (patch_request config (patch_body image)) config w
  = (Responded r, config', w') →
  is_2xx (status_code r) = false →
  create_environment_assignment env image (mkState config w tr)
  = (Raise HTTPError,
     mkState config' w'
       (tr ++ [EHttp (patch_request config (patch_body image)) (Responded r)])).
Proof.
  intros Hpatch Hstatus.
  rewrite (create_run env _ _ _ _ _ _ _ Hpatch), Hstatus. reflexivity.
Qed.

(** C3.  Once the DELETE has been accepted (after fewer than 10 HTTP-level
    failures), [delete_environment_assignment] asks the resource store, in
    this order and once each, for the namespace, the environment resource and
    the environmentassignment resource, and stops at the first that is not
    absent.  It returns (nothing) exactly when all three are absent; when the
    store answers each check with a resource or with "not found" and any of
    the three is still present, it raises [AssertionError]. *)
Theorem delete_asserts_three_absences config w tr failures r a1 a2 a3 w' :
  Forall (λ ans, http_level_failure ans = true) failures →
  (length failures < 10)%nat →
  is_2xx (status_code r) = true →
  let deletes :=
    (delete_event config <$> failures) ++ [delete_event config (Responded r)] in
  let checks :=
    [EKubectl (namespace_query config) a1;
     EKubectl (environment_query config) a2;
     EKubectl (assignment_query config) a3] in
  plays env config w (deletes ++ checks) w' →
  let run := delete_environment_assignment env (mkState config w tr) in
  (a1 = NotFound → a2 = NotFound → a3 = NotFound →
   run = (Ok tt, mkState config w' (tr ++ deletes ++ checks)))
  ∧ (run.1 = Ok tt → a1 = NotFound ∧ a2 = NotFound ∧ a3 = NotFound)
  ∧ ((∀ a e, a ∈ [a1; a2; a3] → a ≠ KubectlFailed e) →
     (∃ resource, Found resource ∈ [a1; a2; a3]) →
     run.1 = Raise AssertionError)
  ∧ (∃ n, (1 ≤ n ≤ 3)%nat ∧ st_trace run.2 = tr ++ deletes ++ take n checks).
Proof.
  intros Hfail Hlen Hstatus deletes checks Hplay run.
  apply plays_app in Hplay as (w0 & Hdel & Hchecks).
  apply plays_kubectl_inv in Hchecks as (w1 & H1 & Hchecks).
  apply plays_kubectl_inv in Hchecks as (w2 & H2 & Hchecks).
  apply plays_kubectl_inv in Hchecks as (w3 & H3 & Hnil).
  apply plays_nil_inv in Hnil. subst w3.
  pose proof (delete_checks env config w tr _ _ a1 a2 a3 _ _ _
                (delete_until_accepted env config failures r w w0 tr Hfail Hlen Hstatus Hdel)
                H1 H2 H3) as Hrun.
  cbv zeta in Hrun. fold deletes in Hrun. fold run in Hrun.
  split; [|split; [|split]].
  - intros -> -> ->. rewrite Hrun. subst checks. rewrite <- app_assoc. reflexivity.
  - rewrite Hrun.
    destruct a1; [discriminate| |discriminate].
    destruct a2; [discriminate| |discriminate].
    destruct a3; [discriminate| |discriminate]. auto.
  - intros Hanswered (resource & Hpresent). rewrite Hrun.
    destruct a1 as [?| |e1]; [reflexivity| |].
    2: { exfalso. apply (Hanswered (KubectlFailed e1) e1); [|reflexivity].
         apply list_elem_of_here. }
    destruct a2 as [?| |e2]; [reflexivity| |].
    2: { exfalso. apply (Hanswered (KubectlFailed e2) e2); [|reflexivity].
         apply list_elem_of_further, list_elem_of_here. }
    destruct a3 as [?| |e3]; [reflexivity| |].
    2: { exfalso. apply (Hanswered (KubectlFailed e3) e3); [|reflexivity].
         do 2 apply list_elem_of_further. apply list_elem_of_here. }
    exfalso. apply list_elem_of_In in Hpresent. simpl in Hpresent.
    intuition discriminate.
  - rewrite Hrun. subst checks.
    destruct a1; [exists 1%nat| |exists 1%nat];
      try (split; [lia|]; cbn [st_trace take]; rewrite <- app_assoc; reflexivity).
    destruct a2; [exists 2%nat| |exists 2%nat];
      try (split; [lia|]; cbn [st_trace take]; rewrite <- app_assoc; reflexivity).
    exists 3%nat.
    destruct a3; (split; [lia|]; cbn [st_trace take]; rewrite <- app_assoc; reflexivity).
Qed.

(** C4.  Whatever the organization id, every query of the resource store
    that [create_environment_assignment] or [delete_environment_assignment]
    makes names the environmentassignment ["{organization_id}-0"] and the
    environment (and namespace) ["environment-{organization_id}-0"], on every
    run; for the organization id ["org1"] the names are ["org1-0"] and
    ["environment-org1-0"]. *)
Theorem controller_names_resources_after_organization image (s : state W) :
  let org := organization_id (st_config s) in
  logs_only (names_of org) s (create_environment_assignment env image s).2
  ∧ logs_only (names_of org) s (delete_environment_assignment env s).2
  ∧ queried (st_trace (create_environment_assignment Scripted.collaborators image
                         (Scripted.start Scripted.creation)).2)
    = [("environment", "environment-org1-0"); ("environment", "environment-org1-0");
       ("environmentassignment", "org1-0")]
  ∧ queried (st_trace (delete_environment_assignment Scripted.collaborators
                         (Scripted.start Scripted.deletion)).2)
    = [("namespace", "environment-org1-0"); ("environment", "environment-org1-0");
       ("environmentassignment", "org1-0")].
Proof.
  intros org. split; [|split; [|split; [destruct image|]; vm_compute; reflexivity]].
  - apply (create_keeps env _ (logs_only_refl _) (logs_only_trans _)).
    + intros req. apply (send_logs_only env). intros; exact I.
    + intros context. apply (query_logs_only env). intros ans. right. split; [left|]; reflexivity.
    + intros context. apply (query_logs_only env). intros ans. left. split; reflexivity.
  - apply (delete_keeps env _ (logs_only_refl _) (logs_only_trans _)).
    + intros req. apply (send_logs_only env). intros; exact I.
    + intros context. apply (query_logs_only env). intros ans. right. split; [right|]; reflexivity.
    + intros context. apply (query_logs_only env). intros ans. right. split; [left|]; reflexivity.
    + intros context. apply (query_logs_only env). intros ans. left. split; reflexivity.
Qed.

(** C7.  The DELETE of [delete_environment_assignment] goes to
    [/api/region] with a timeout of 305 seconds.  An HTTP-level failure (a
    response that is not 2xx, no response, an [HTTPError] of the client) is
    followed by the next attempt, and 10 such failures in a row end the
    operation with a failure after exactly 10 DELETEs.  A failure of any
    other kind ends the operation with that failure at once, with no further
    DELETE and no absence check. *)
Theorem delete_retries_http_failures_only config w tr failures :
  Forall (λ ans, http_level_failure ans = true) failures →
  let run := delete_environment_assignment env (mkState config w tr) in
  (req_method (delete_request config) = DELETE
   ∧ req_path (delete_request config) = "/api/region"
   ∧ req_timeout (delete_request config) = Some 305)
  ∧ (∀ w',
       length failures = 10%nat →
       plays env config w (delete_event config <$> failures) w' →
       ∃ e, run = (Raise e,
                   mkState config w' (tr ++ (delete_event config <$> failures))))
  ∧ (∀ e w',
       (length failures < 10)%nat →
       e ≠ HTTPError →
       let script :=
         (delete_event config <$> failures) ++ [delete_event config (Crashed e)] in
       plays env config w script w' →
       run = (Raise e, mkState config w' (tr ++ script))).
Proof.
  intros Hfail run. split; [repeat split|split].
  - intros w' Hlen Hplay. exists RetryExhausted. subst run.
    unfold delete_environment_assignment. run_gets.
    apply bind_raise.
    replace 10%nat with (length failures + 0)%nat by lia.
    rewrite (delete_failures env config failures _ w w' tr Hfail Hplay).
    reflexivity.
  - intros e w' Hlen Hne script Hplay. subst run script.
    apply plays_app in Hplay as (wm & Hplay1 & Hplay2).
    apply plays_http_inv in Hplay2 as (w2 & Hdel & Hnil).
    apply plays_nil_inv in Hnil. subst w2.
    unfold delete_environment_assignment. run_gets.
    apply bind_raise.
    replace 10%nat with (length failures + S (9 - length failures))%nat by lia.
    rewrite (delete_failures env config failures _ w wm tr Hfail Hplay1).
    rewrite app_assoc.
    apply retry_fatal.
    + rewrite (delete_attempt_run env _ _ _ _ _ Hdel). reflexivity.
    + intros Hin. apply list_elem_of_singleton in Hin. contradiction.
Qed.

(** C8.  [create_environment_assignment] sends one PATCH whose body holds
    the field [environmentdImageRef], set to the image, exactly when an image
    is supplied and is the empty object otherwise.  After a 2xx answer it
    polls the resource store for the environment resource under the
    environment name: a "not found" is followed by the next poll, up to 10
    polls in all, after which the operation fails without fetching anything.
    Once the environment resource is found it fetches the
    environmentassignment resource under the assignment id exactly once: a
    found resource is the result, a missing one fails the operation with no
    second fetch. *)
Theorem create_patches_polls_fetches image config w tr r :
  is_2xx (status_code r) = true →
  let patched := EHttp (patch_request config (patch_body image)) (Responded r) in
  let poll := EKubectl (environment_query config) in
  let fetch := EKubectl (assignment_query config) in
  let run := create_environment_assignment env image (mkState config w tr) in
  (∀ key, patch_body image !! key
          = if decide (key = "environmentdImageRef") then JStr <$> image else None)
  ∧ (∀ k resource assignment w',
       (k < 10)%nat →
       let script :=
         patched :: replicate k (poll NotFound)
           ++ [poll (Found resource); fetch (Found assignment)] in
       plays env config w script w' →
       run = (Ok assignment, mkState config w' (tr ++ script)))
  ∧ (∀ w',
       let script := patched :: replicate 10 (poll NotFound) in
       plays env config w script w' →
       ∃ e, run = (Raise e, mkState config w' (tr ++ script)))
  ∧ (∀ k resource w',
       (k < 10)%nat →
       let script :=
         patched :: replicate k (poll NotFound)
           ++ [poll (Found resource); fetch NotFound] in
       plays env config w script w' →
       run = (Raise ResourceNotFound, mkState config w' (tr ++ script))).
Proof.
  intros Hstatus patched poll fetch run.
  assert (∀ k resource answer w',
            (k < 10)%nat →
            let script :=
              patched :: replicate k (poll NotFound)
                ++ [poll (Found resource); fetch answer] in
            plays env config w script w' →
            run = (match answer with
                   | Found assignment => Ok assignment
                   | NotFound => Raise ResourceNotFound
                   | KubectlFailed e => Raise e
                   end, mkState config w' (tr ++ script))) as Hpath.
  { intros k resource answer w' Hk script Hplay. subst script run patched poll fetch.
    apply plays_http_inv in Hplay as (w1 & Hpatch & Hplay).
    apply plays_app in Hplay as (w2 & Hmiss & Hplay).
    apply plays_kubectl_inv in Hplay as (w3 & Hfound & Hplay).
    apply plays_kubectl_inv in Hplay as (w4 & Hfetch & Hnil).
    apply plays_nil_inv in Hnil. subst w4.
    rewrite (create_run env _ _ _ _ _ _ _ Hpatch), Hstatus.
    unfold kubectl_get_retry.
    replace 10%nat with (k + S (9 - k))%nat by lia.
    erewrite bind_ok.
    2: { rewrite (poll_misses env config k _ w1 w2 _ Hmiss).
         apply retry_ok.
         rewrite (kubectl_get_run env _ _ _ _ _ _ _ _ _ Hfound). reflexivity. }
    cbv beta. run_gets.
    rewrite (kubectl_get_run env _ _ _ _ _ _ _ _ _ Hfetch).
    f_equal. f_equal. rewrite <- !app_assoc. reflexivity. }
  split; [apply patch_body_lookup|split; [|split]].
  - intros k resource assignment w' Hk script Hplay.
    apply (Hpath k resource (Found assignment) w' Hk Hplay).
  - intros w' script Hplay. exists RetryExhausted. subst script run patched poll.
    apply plays_http_inv in Hplay as (w1 & Hpatch & Hplay).
    rewrite (create_run env _ _ _ _ _ _ _ Hpatch), Hstatus.
    apply bind_raise. unfold kubectl_get_retry.
    change 10%nat with (10 + 0)%nat at 1.
    rewrite (poll_misses env config 10 _ w1 w' _ Hplay).
    rewrite <- app_assoc. reflexivity.
  - intros k resource w' Hk script Hplay.
    apply (Hpath k resource NotFound w' Hk Hplay).
Qed.

(** C9.  None of the three operations writes to the configuration object:
    provided the region API client, which is handed the object, leaves it as
    it is, the configuration after [create_environment_assignment],
    [wait_for_environmentd] or [delete_environment_assignment] is the one
    before, whether the operation returns or raises. *)
Theorem controller_never_writes_config image (s : state W) :
  http_keeps_config env →
  st_config (create_environment_assignment env image s).2 = st_config s
  ∧ st_config (wait_for_environmentd env max_str_digits s).2 = st_config s
  ∧ st_config (delete_environment_assignment env s).2 = st_config s.
Proof.
  intros Hframe.
  pose proof (λ req, send_same_config env req Hframe) as Hsend.
  split; [|split].
  - apply (create_keeps env same_config same_config_refl same_config_trans);
      [exact Hsend | intros context; apply query_same_config ..].
  - apply (wait_keeps env max_str_digits same_config same_config_refl
             same_config_trans);
      [exact Hsend | apply connect_same_config].
  - apply (delete_keeps env same_config same_config_refl same_config_trans);
      [exact Hsend | intros context; apply query_same_config ..].
Qed.

(** C10.  Once a probe has passed the readiness assertions,
    [wait_for_environmentd] needs the [sqlAddress] of its payload to hold
    exactly one colon with a port after it that [int] accepts.  An address
    with no colon or with more than one, or with a port text that [int]
    refuses (any text with a character other than digits, underscores, a
    sign and white space, for one), ends the operation with [ValueError]; by
    then the probes have
    been made and no connectivity probe follows.  An address that splits in
    two with a port that converts is the one case in which the connectivity
    probe is made. *)
Theorem wait_for_environmentd_needs_host_colon_port
    config w tr pending last payload address w1 :
  Forall (λ r, not_ready_response r = true) pending →
  (length pending < 600)%nat →
  is_2xx (status_code last) = true →
  body last = Some payload →
  ready_with payload (JStr address) →
  let probes := (probe_event config <$> pending) ++ [probe_event config last] in
  plays env config w probes w1 →
  let run := wait_for_environmentd env max_str_digits (mkState config w tr) in
  (count_char ":" address ≠ 1%nat
   ∨ (∃ host port_text,
        str_split ":" address = [host; port_text]
        ∧ str_to_int max_str_digits port_text = None)
   ∨ (∃ host port_text c,
        str_split ":" address = [host; port_text]
        ∧ In c (list_ascii_of_string port_text)
        ∧ numeric_char c = false) →
   run = (Raise ValueError, mkState config w1 (tr ++ probes)))
  ∧ (∀ host port_text port ans w2,
       str_split ":" address = [host; port_text] →
       str_to_int max_str_digits port_text = Some port →
       prober env host port 300 w1 = (ans, w2) →
       count_char ":" address = 1%nat
       ∧ run = (match ans with
                | Connected => Ok payload
                | ConnectFailed e => Raise e
                end,
                mkState config w2 (tr ++ probes ++ [EConnect host port 300 ans]))).
Proof.
  intros Hpending Hlen Hstatus Hbody Hready probes Hplay run.
  pose proof (wait_after_ready env max_str_digits _ _ _ _ _
                (poll_until_ready env _ _ _ _ _ _ _ tr
                   Hpending Hlen Hstatus Hbody Hready Hplay)
                Hbody Hready) as Hrun.
  fold run probes in Hrun. cbn [py_split] in Hrun.
  split.
  - intros Hbad.
    assert (count_char ":" address ≠ 1%nat
            ∨ ∃ host port_text,
                str_split ":" address = [host; port_text]
                ∧ str_to_int max_str_digits port_text = None)
      as [Hcount | (host & port_text & Hsplit & Hint)].
    { destruct Hbad as [Hcount | [Hport | (host & port_text & c & Hsplit & Hin & Hc)]];
        [left; exact Hcount | right; exact Hport |].
      right. exists host, port_text. split; [exact Hsplit|].
      exact (str_to_int_refuses _ _ _ Hin Hc). }
    + rewrite Hrun, unpack2_length; [reflexivity|].
      rewrite str_split_length. lia.
    + rewrite Hrun, Hsplit. cbn [unpack2]. unfold py_int. rewrite Hint. reflexivity.
  - intros host port_text port ans w2 Hsplit Hint Hprobe. split.
    + apply str_split_one_separator. eauto.
    + rewrite Hrun, Hsplit. cbn [unpack2]. unfold py_int. rewrite Hint.
      rewrite (wait_for_connectable_run env _ _ _ _ _ _ _ _ Hprobe).
      rewrite <- app_assoc. destruct ans; reflexivity.
Qed.

End Claims.

(** ** Further properties of the code *)

Section ControllerRuns.
Context {W : Type} (env : Collaborators W) (max_str_digits : nat).

(** X1.  One readiness probe answered with a 2xx response logs that one GET
    and sorts the response four ways, and no other: it returns the response
    exactly when the payload passes the three assertions, raises
    [AssertionError] exactly when the payload says "not ready", raises
    [JSONDecodeError] exactly when the body is not JSON, and raises
    [AttributeError] exactly when the payload is JSON of the wrong shape (not
    a [dict], or a [regionInfo] that is truthy and not a [dict]). *)
Theorem probe_sorts_responses config w tr r config' w1 :
  region_api env (probe_request config) config w = (Responded r, config', w1) →
  is_2xx (status_code r) = true →
  let run := get_environment env (mkState config w tr) in
  run.2 = mkState config' w1 (tr ++ [probe_event config r])
  ∧ (run.1 = Ok r
     ↔ ∃ payload sql_address, body r = Some payload ∧ ready_with payload sql_address)
  ∧ (run.1 = Raise AssertionError ↔ not_ready_response r = true)
  ∧ (run.1 = Raise JSONDecodeError ↔ body r = None)
  ∧ (run.1 = Raise AttributeError
     ↔ ∃ payload, body r = Some payload ∧ not_ready payload = false
                  ∧ ready payload = false)
  ∧ (run.1 = Ok r ∨ run.1 = Raise AssertionError
     ∨ run.1 = Raise JSONDecodeError ∨ run.1 = Raise AttributeError).
Proof.
  intros Hget Hstatus run. subst run.
  rewrite (probe_run_any env _ _ _ _ _ _ Hget), Hstatus.
  unfold not_ready_response. rewrite Hstatus. cbn [fst snd andb].
  split; [reflexivity|].
  destruct (body r) as [payload|] eqn:Hbody.
  2: { repeat split; try discriminate; auto.
       - intros (? & ? & ? & _). discriminate.
       - intros (? & ? & _). discriminate. }
  destruct (not_ready payload) eqn:Hnot.
  { repeat split; try discriminate; auto.
    - intros (p & sql & Hp & Hready). injection Hp as <-.
      assert (ready payload = true) as Hr by (apply ready_iff; eauto).
      apply ready_not_not_ready in Hr. congruence.
    - intros (p & Hp & Hn & _). injection Hp as <-. congruence. }
  destruct (ready payload) eqn:Hready.
  - repeat split; try discriminate; auto.
    + intros _. apply ready_iff in Hready as (sql & Hsql). eauto.
    + intros (p & Hp & _ & Hr). injection Hp as <-. congruence.
  - repeat split; try discriminate; auto 6.
    + intros (p & sql & Hp & Hsql). injection Hp as <-.
      assert (ready payload = true) by (apply ready_iff; eauto). congruence.
    + intros _. eauto.
Qed.

(** X2.  Whatever the external systems do: when [wait_for_environmentd]
    returns a payload, the last two entries of the log are the GET that was
    answered with that payload and a connectivity probe with bound 300 that
    was accepted; the payload passes the readiness assertions, its
    [sqlAddress] is a text that splits at its one colon into the host and the
    port that were probed. *)
Theorem wait_for_environmentd_returns_after_connecting s payload s' :
  wait_for_environmentd env max_str_digits s = (Ok payload, s') →
  ∃ log base_url r address host port_text port,
    st_trace s'
    = log ++ [EHttp (mkRequest GET base_url "/api/region" None None) (Responded r);
              EConnect host port 300 Connected]
    ∧ body r = Some payload
    ∧ ready_with payload (JStr address)
    ∧ str_split ":" address = [host; port_text]
    ∧ str_to_int max_str_digits port_text = Some port.
Proof.
  intros Hrun.
  pose proof Hrun as Hbind. unfold wait_for_environmentd in Hbind.
  apply bind_inv_ok in Hbind as (r & s1 & Hretry & _).
  destruct (retry_ok_inv _ _ _ _ _ _ Hretry) as (s0 & Hprobe).
  destruct (probe_ok_inv env _ _ _ Hprobe) as (payload0 & sql & Hbody & Hready).
  destruct (probe_ok_log env _ _ _ Hprobe) as (base_url & Hlog).
  rewrite (wait_after_ready env max_str_digits _ _ _ _ _ Hretry Hbody Hready) in Hrun.
  destruct sql as [| | | | address | |]; try discriminate Hrun.
  cbn [py_split] in Hrun.
  destruct (str_split ":" address) as [|host [|port_text [|]]] eqn:Hsplit;
    try discriminate Hrun.
  cbn [unpack2] in Hrun. unfold py_int in Hrun.
  destruct (str_to_int max_str_digits port_text) as [port|] eqn:Hint;
    [|discriminate Hrun].
  destruct (wait_for_connectable_log env host port 300 s1) as (ans & Hconnect & Hok).
  destruct (wait_for_connectable env (host, port) 300 s1) as [[[]|e] s2];
    [|discriminate Hrun].
  injection Hrun as <- <-. cbn [fst snd] in *. rewrite (Hok eq_refl) in Hconnect.
  exists (st_trace s0), base_url, r, address, host, port_text, port.
  rewrite Hconnect, Hlog, <- app_assoc. auto.
Qed.

(** X3.  Whatever the external systems do, a run of [wait_for_environmentd]
    logs between 1 and 600 GETs of [/api/region] (no body, no timeout of
    their own), then at most one connectivity probe with bound 300, and
    nothing else: it never asks the resource store. *)
Theorem wait_for_environmentd_makes_bounded_calls (s : state W) :
  ∃ probes tail,
    st_trace (wait_for_environmentd env max_str_digits s).2
    = st_trace s ++ probes ++ tail
    ∧ (1 ≤ length probes ≤ 600)%nat
    ∧ Forall is_probe probes
    ∧ (tail = [] ∨ ∃ host port ans, tail = [EConnect host port 300 ans]).
Proof.
  destruct (retry_log (get_environment env) is_probe [AssertionError] 600
              (probe_logs_one env) s) as (probes & Hlog & Hlen & Hprobes & Hne).
  assert (1 ≤ length probes ≤ 600)%nat as Hbound.
  { split; [|exact Hlen]. destruct probes; [exfalso; apply Hne; congruence | cbn; lia]. }
  exists probes. unfold wait_for_environmentd. rewrite bind_run.
  destruct (retry (get_environment env) 600 [AssertionError] s) as [[r|e] s1];
    cbn [snd] in Hlog.
  2: { exists []. rewrite app_nil_r. auto. }
  set (Φ := λ sf : state W, ∃ tail,
         st_trace sf = st_trace s ++ probes ++ tail
         ∧ (1 ≤ length probes ≤ 600)%nat
         ∧ Forall is_probe probes
         ∧ (tail = [] ∨ ∃ host port ans, tail = [EConnect host port 300 ans])).
  assert (Φ s1) as Hstop.
  { exists []. rewrite app_nil_r. auto. }
  change (Φ ((environment_json ← lift (response_json r);
              region_info ← lift (py_getitem environment_json "regionInfo");
              pgwire_url ← lift (py_getitem region_info "sqlAddress");
              pieces ← lift (py_split pgwire_url ":");
              '(pgwire_host, pgwire_port) ← lift (unpack2 pieces);
              port ← lift (py_int max_str_digits pgwire_port);
              wait_for_connectable env (pgwire_host, port) 300;;
              mret environment_json) s1).2).
  apply lift_bind_post; [exact Hstop | intros environment_json].
  apply lift_bind_post; [exact Hstop | intros region_info].
  apply lift_bind_post; [exact Hstop | intros pgwire_url].
  apply lift_bind_post; [exact Hstop | intros pieces].
  apply lift_bind_post; [exact Hstop | intros [pgwire_host pgwire_port]].
  apply lift_bind_post; [exact Hstop | intros port].
  rewrite bind_run.
  destruct (wait_for_connectable_log env pgwire_host port 300 s1) as (ans & Hconnect & _).
  destruct (wait_for_connectable env (pgwire_host, port) 300 s1) as [[[]|x] sf];
    cbn [snd] in Hconnect; cbv beta iota; rewrite ?ret_run; cbn [snd];
    exists [EConnect pgwire_host port 300 ans];
    rewrite Hconnect, Hlog, <- app_assoc; eauto 10.
Qed.

(** X4.  When the probe has passed the assertions but the [sqlAddress] of
    its payload is not a [str] (a number, a list, [True], ...),
    [wait_for_environmentd] ends with [AttributeError] from [split]; the log
    holds the probes and no connectivity probe. *)
Theorem wait_for_environmentd_needs_a_text_address
    config w tr pending last payload sql_address w1 :
  Forall (λ r, not_ready_response r = true) pending →
  (length pending < 600)%nat →
  is_2xx (status_code last) = true →
  body last = Some payload →
  ready_with payload sql_address →
  (∀ address, sql_address ≠ JStr address) →
  let probes := (probe_event config <$> pending) ++ [probe_event config last] in
  plays env config w probes w1 →
  wait_for_environmentd env max_str_digits (mkState config w tr)
  = (Raise AttributeError, mkState config w1 (tr ++ probes)).
Proof.
  intros Hpending Hlen Hstatus Hbody Hready Hsql probes Hplay.
  rewrite (wait_after_ready env max_str_digits _ _ _ _ _
             (poll_until_ready env _ _ _ _ _ _ _ tr
                Hpending Hlen Hstatus Hbody Hready Hplay)
             Hbody Hready).
  destruct sql_address as [| | | | address | |]; try reflexivity.
  exfalso. apply (Hsql address). reflexivity.
Qed.

(** X5.  [wait_for_environmentd] does not retry HTTP-level failures: after
    any number of "not ready" answers within the budget, a response that is
    not 2xx (or no response) to the next probe ends the operation at once
    with [HTTPError], with no further probe and no connectivity probe. *)
Theorem wait_for_environmentd_gives_up_on_http_failure
    config w tr pending ans w1 :
  Forall (λ r, not_ready_response r = true) pending →
  (length pending < 600)%nat →
  http_level_failure ans = true →
  let script :=
    (probe_event config <$> pending) ++ [EHttp (probe_request config) ans] in
  plays env config w script w1 →
  wait_for_environmentd env max_str_digits (mkState config w tr)
  = (Raise HTTPError, mkState config w1 (tr ++ script)).
Proof.
  intros Hpending Hlen Hfail script Hplay. subst script.
  apply plays_app in Hplay as (wm & Hplay1 & Hplay2).
  apply plays_http_inv in Hplay2 as (w2 & Hget & Hnil).
  apply plays_nil_inv in Hnil. subst w2.
  unfold wait_for_environmentd. apply bind_raise.
  replace 600%nat with (length pending + S (599 - length pending))%nat by lia.
  rewrite (poll_pending env config pending _ w wm tr Hpending Hplay1).
  rewrite app_assoc. apply retry_fatal.
  - rewrite (probe_run_any env _ _ _ _ _ _ Hget).
    destruct ans as [r| |e]; cbn [http_level_failure] in Hfail.
    + apply negb_true_iff in Hfail. rewrite Hfail. reflexivity.
    + reflexivity.
    + apply bool_decide_eq_true in Hfail. subst e. reflexivity.
  - intros Hin. apply list_elem_of_singleton in Hin. discriminate.
Qed.

(** X6.  Whatever the external systems do, a run of
    [create_environment_assignment] logs exactly one PATCH, first, with the
    body of the image; then at most 10 polls of the environment resource;
    then at most one fetch of the environmentassignment, and nothing else.
    Nothing follows a PATCH that was not accepted; the fetch is made only
    after a poll that found the environment; and a returned resource is the
    one the fetch found. *)
Theorem create_makes_one_patch_and_bounded_queries image (s : state W) :
  let config := st_config s in
  let org := organization_id config in
  let run := create_environment_assignment env image s in
  let poll :=
    EKubectl (mkQuery (environment_context (st_config run.2)) None "environment"
                (environment_name org)) in
  let fetch :=
    EKubectl (mkQuery (system_context (st_config run.2)) None "environmentassignment"
                (assignment_id org)) in
  ∃ ans polls fetched,
    st_trace run.2
    = st_trace s
      ++ EHttp (patch_request config (patch_body image)) ans
         :: (poll <$> polls) ++ (fetch <$> fetched)
    ∧ (length polls ≤ 10)%nat
    ∧ (length fetched ≤ 1)%nat
    ∧ (accepted ans = false → polls = [] ∧ fetched = [])
    ∧ (fetched ≠ [] → ∃ environment, last polls = Some (Found environment))
    ∧ (∀ resource, run.1 = Ok resource → fetched = [Found resource]).
Proof.
  destruct s as [config w tr]. cbv zeta. cbn [st_config st_trace].
  set (run := create_environment_assignment env image (mkState config w tr)).
  destruct (region_api env (patch_request config (patch_body image)) config w)
    as [[ans config'] w1] eqn:Hpatch.
  pose proof (create_run env image config w tr ans config' w1 Hpatch) as Hrun.
  cbv zeta in Hrun. fold run in Hrun. exists ans.
  assert (accepted ans = false →
          run = (match ans with
                 | Responded _ | TransportFailure => Raise HTTPError
                 | Crashed e => Raise e
                 end,
                 mkState config' w1
                   (tr ++ [EHttp (patch_request config (patch_body image)) ans])))
    as Hrejected.
  { intros Hacc. rewrite Hrun. destruct ans as [r| |e]; cbn [accepted] in Hacc;
      [rewrite Hacc|..]; reflexivity. }
  destruct (accepted ans) eqn:Hacc.
  2: { exists [], []. rewrite (Hrejected eq_refl). cbn [snd fst st_trace fmap list_fmap].
       rewrite app_nil_r. repeat split; try (cbn; lia); try congruence.
       destruct ans; discriminate. }
  destruct ans as [r| |e]; try discriminate Hacc. cbn [accepted] in Hacc.
  rewrite Hacc in Hrun. rewrite bind_run in Hrun.
  set (s1 := mkState config' w1
               (tr ++ [EHttp (patch_request config (patch_body image)) (Responded r)]))
    in *.
  destruct (poll_log env (environment_context config') (environment_name (organization_id config)) 10 s1)
    as (polls & Hlog & Hlen & Hconfig & Hlast).
  destruct (kubectl_get_retry env (environment_context config') None "environment"
              (environment_name (organization_id config)) 10 s1) as [[environment|e] s2] eqn:Hpoll;
    cbn [fst snd] in *.
  2: { exists polls, []. rewrite Hrun. cbn [snd fst].
       rewrite Hconfig, Hlog. cbn [st_config st_trace s1 fmap list_fmap].
       rewrite app_nil_r, <- app_assoc.
       repeat split; try (cbn; lia); try congruence. }
  rewrite bind_run, gets_run in Hrun. cbv beta iota in Hrun.
  unfold compose in Hrun. rewrite kubectl_get_any in Hrun.
  destruct (resource_store env _ (st_world s2)) as [a w3] eqn:Hfetch.
  exists polls, [a]. rewrite Hrun. cbn [snd fst st_config st_trace].
  rewrite Hlog, Hconfig. cbn [st_config st_trace s1 fmap list_fmap].
  rewrite <- !app_assoc.
  repeat split; try (cbn; lia); try congruence.
  - intros _. eauto.
  - intros resource. destruct a; intros [= <-]. reflexivity.
Qed.

(** X7.  The poll of [create_environment_assignment] tolerates "not found"
    only: when the resource store fails in another way at a poll, after fewer
    than 10 "not found", the operation ends at once with that failure; no
    further poll is made and the environmentassignment is not fetched. *)
Theorem create_gives_up_on_store_failure image config w tr r k e w' :
  is_2xx (status_code r) = true →
  (k < 10)%nat →
  e ≠ ResourceNotFound →
  let script :=
    EHttp (patch_request config (patch_body image)) (Responded r)
    :: replicate k (EKubectl (environment_query config) NotFound)
    ++ [EKubectl (environment_query config) (KubectlFailed e)] in
  plays env config w script w' →
  create_environment_assignment env image (mkState config w tr)
  = (Raise e, mkState config w' (tr ++ script)).
Proof.
  intros Hstatus Hk He script Hplay. subst script.
  apply plays_http_inv in Hplay as (w1 & Hpatch & Hplay).
  apply plays_app in Hplay as (w2 & Hmiss & Hplay).
  apply plays_kubectl_inv in Hplay as (w3 & Hfail & Hnil).
  apply plays_nil_inv in Hnil. subst w3.
  rewrite (create_run env _ _ _ _ _ _ _ Hpatch), Hstatus.
  apply bind_raise. unfold kubectl_get_retry.
  replace 10%nat with (k + S (9 - k))%nat by lia.
  rewrite (poll_misses env config k _ w1 w2 _ Hmiss).
  rewrite (retry_fatal _ _ _ _ e
             (mkState config w'
                ((tr ++ [EHttp (patch_request config (patch_body image)) (Responded r)])
                 ++ replicate k (EKubectl (environment_query config) NotFound)
                 ++ [EKubectl (environment_query config) (KubectlFailed e)]))).
  - rewrite <- !app_assoc. reflexivity.
  - rewrite (kubectl_get_run env _ _ _ _ _ _ _ _ _ Hfail), <- !app_assoc.
    reflexivity.
  - intros Hin. apply list_elem_of_singleton in Hin. contradiction.
Qed.

(** X8.  Whatever the external systems do, a run of
    [delete_environment_assignment] logs between 1 and 10 DELETEs of
    [/api/region], each with the timeout 305, then at most the three absence
    checks, in their order (namespace, environment, environmentassignment),
    and nothing else.  A check is made only after a DELETE that was accepted
    and only while the checks before it found nothing; the operation returns
    exactly when all three checks were made and found nothing. *)
Theorem delete_makes_bounded_deletes_then_checks (s : state W) :
  let org := organization_id (st_config s) in
  let run := delete_environment_assignment env s in
  let checks := absence_checks (st_config run.2) org in
  ∃ deletes answers,
    st_trace run.2 = st_trace s ++ deletes ++ zip_with EKubectl checks answers
    ∧ (1 ≤ length deletes ≤ 10)%nat
    ∧ Forall is_delete deletes
    ∧ (length answers ≤ 3)%nat
    ∧ Forall (λ a, a = NotFound) (removelast answers)
    ∧ (answers ≠ [] →
       ∃ base_url r,
         last deletes
         = Some (EHttp (mkRequest DELETE base_url "/api/region" None (Some 305))
                       (Responded r))
         ∧ is_2xx (status_code r) = true)
    ∧ (run.1 = Ok tt ↔ answers = [NotFound; NotFound; NotFound]).
Proof.
  cbv zeta.
  destruct (retry_log (delete_environment env) is_delete [HTTPError] 10
              (delete_attempt_logs_one env) s) as (deletes & Hlog & Hlen & Hdel & Hne).
  assert (1 ≤ length deletes ≤ 10)%nat as Hbound.
  { split; [|exact Hlen]. destruct deletes; [exfalso; apply Hne; congruence | cbn; lia]. }
  exists deletes.
  destruct (retry (delete_environment env) 10 [HTTPError] s) as [[[]|e] s1] eqn:Hretry;
    cbn [snd] in Hlog.
  2: { exists []. 
       assert (delete_environment_assignment env s = (Raise e, s1)) as ->.
       { unfold delete_environment_assignment. rewrite bind_run, gets_run.
         cbv beta iota zeta. apply bind_raise. exact Hretry. }
       cbn [fst snd]. rewrite Hlog, zip_with_nil_r, app_nil_r.
       repeat split; try (cbn; lia); try congruence; try discriminate. constructor. }
  assert (∃ base_url r,
            last deletes
            = Some (EHttp (mkRequest DELETE base_url "/api/region" None (Some 305))
                          (Responded r))
            ∧ is_2xx (status_code r) = true) as Haccepted.
  { destruct (retry_log_last (delete_environment env)
                (λ (_ : unit) e, ∃ base_url r,
                   e = EHttp (mkRequest DELETE base_url "/api/region" None (Some 305))
                             (Responded r)
                   ∧ is_2xx (status_code r) = true) [HTTPError] 10
                (delete_attempt_ok_log env) s tt)
      as (l & e & Hl & base_url & r & -> & Hstatus).
    { rewrite Hretry. reflexivity. }
    rewrite Hretry in Hl. cbn [snd] in Hl. rewrite Hlog in Hl.
    apply app_inv_head in Hl. subst deletes. rewrite last_snoc. eauto. }
  destruct s1 as [config0 w0 tr0]. cbn [st_trace] in Hlog.
  destruct (resource_store env
              (mkQuery (environment_context config0) None "namespace"
                 (environment_name (organization_id (st_config s)))) w0)
    as [a1 w1] eqn:H1.
  destruct (resource_store env
              (mkQuery (environment_context config0) None "environment"
                 (environment_name (organization_id (st_config s)))) w1)
    as [a2 w2] eqn:H2.
  destruct (resource_store env
              (mkQuery (system_context config0) None "environmentassignment"
                 (assignment_id (organization_id (st_config s)))) w2)
    as [a3 w3] eqn:H3.
  rewrite (delete_checks_any env s config0 w0 tr0 a1 a2 a3 w1 w2 w3 Hretry H1 H2 H3).
  assert (∀ answers (r : result unit) (wf : W),
            (length answers ≤ 3)%nat →
            answers ≠ [] →
            Forall (λ a, a = NotFound) (removelast answers) →
            (r = Ok tt ↔ answers = [NotFound; NotFound; NotFound]) →
            let run :=
              (r, mkState config0 wf
                    (tr0 ++ zip_with EKubectl
                              (absence_checks config0 (organization_id (st_config s)))
                              answers)) in
            ∃ answers,
              st_trace run.2
              = st_trace s ++ deletes
                ++ zip_with EKubectl
                     (absence_checks (st_config run.2) (organization_id (st_config s)))
                     answers
              ∧ (1 ≤ length deletes ≤ 10)%nat
              ∧ Forall is_delete deletes
              ∧ (length answers ≤ 3)%nat
              ∧ Forall (λ a, a = NotFound) (removelast answers)
              ∧ (answers ≠ [] →
                 ∃ base_url r,
                   last deletes
                   = Some (EHttp (mkRequest DELETE base_url "/api/region" None
                                    (Some 305)) (Responded r))
                   ∧ is_2xx (status_code r) = true)
              ∧ (run.1 = Ok tt ↔ answers = [NotFound; NotFound; NotFound])) as Hfinish.
  { intros answers r wf Hanswers Hsome Hstop Hok run. exists answers. subst run.
    cbn [fst snd st_config st_trace]. rewrite Hlog, <- app_assoc. auto 10. }
  destruct a1 as [resource1| |e1].
  - apply (Hfinish [Found resource1]); cbn; try lia; try congruence.
    + constructor.
    + split; discriminate.
  - destruct a2 as [resource2| |e2].
    + apply (Hfinish [NotFound; Found resource2]); cbn; try lia; try congruence.
      * repeat constructor.
      * split; discriminate.
    + destruct a3 as [resource3| |e3].
      * apply (Hfinish [NotFound; NotFound; Found resource3]); cbn; try lia;
          try congruence; [repeat constructor | split; discriminate].
      * apply (Hfinish [NotFound; NotFound; NotFound]); cbn; try lia;
          try congruence; [repeat constructor | split; reflexivity].
      * apply (Hfinish [NotFound; NotFound; KubectlFailed e3]); cbn; try lia;
          try congruence; [repeat constructor | split; discriminate].
    + apply (Hfinish [NotFound; KubectlFailed e2]); cbn; try lia; try congruence.
      * repeat constructor.
      * split; discriminate.
  - apply (Hfinish [KubectlFailed e1]); cbn; try lia; try congruence.
    + constructor.
    + split; discriminate.
Qed.

End ControllerRuns.

Section SchemaRuns.

(** X9.  For every [Schema], [init_sqls] is [connect_sqls] followed by the
    drop and the creation of the schema, the drop, creation and filling of
    table [t1], and the creation of the index when [create_index] is set:
    between 6 and 9 statements, of which the first 1 to 3 are those of
    [connect_sqls] and the very first sets the schema. *)
Theorem init_sqls_connects_then_rebuilds (self : Schema) :
  init_sqls self
  = connect_sqls self
    ++ ["DROP SCHEMA IF EXISTS " +:+ schema self +:+ " CASCADE;";
        "CREATE SCHEMA " +:+ schema self +:+ ";";
        "DROP TABLE IF EXISTS t1;";
        "CREATE TABLE t1 (f1 INTEGER DEFAULT 1);";
        "INSERT INTO t1 DEFAULT VALUES;"]
    ++ (if create_index self then ["CREATE INDEX i1 ON t1 (f1);"] else [])
  ∧ (1 ≤ length (connect_sqls self) ≤ 3)%nat
  ∧ (6 ≤ length (init_sqls self) ≤ 9)%nat
  ∧ connect_sqls self !! 0%nat = Some ("SET SCHEMA = " +:+ schema self +:+ ";").
Proof.
  pose proof (init_sqls_cases self) as Hinit.
  assert (1 ≤ length (connect_sqls self) ≤ 3)%nat as Hlen.
  { rewrite connect_sqls_cases.
    destruct (cluster_name self), (transaction_isolation self); cbn; lia. }
  split; [exact Hinit|]. split; [exact Hlen|]. split.
  - rewrite Hinit, !length_app. destruct (create_index self); cbn; lia.
  - rewrite connect_sqls_cases. reflexivity.
Qed.

(** X10.  Whatever the schema name and the cluster name are (the empty text
    included), every statement of [init_sqls] and of [connect_sqls] ends in a
    semicolon. *)
Theorem init_sqls_statements_are_terminated (self : Schema) :
  Forall (λ statement, last_char statement = Some ";"%char) (init_sqls self)
  ∧ Forall (λ statement, last_char statement = Some ";"%char) (connect_sqls self).
Proof.
  assert (Forall (λ statement, last_char statement = Some ";"%char)
            (connect_sqls self)) as Hconnect.
  { rewrite connect_sqls_cases.
    repeat apply Forall_app_2.
    - repeat constructor. rewrite !last_char_append; [reflexivity | discriminate |].
      destruct (schema self); discriminate.
    - destruct (cluster_name self) as [name|]; repeat constructor.
      rewrite !last_char_append; [reflexivity | discriminate |].
      destruct name; discriminate.
    - destruct (transaction_isolation self) as [isolation|]; repeat constructor.
      rewrite !last_char_append; [reflexivity | discriminate |].
      destruct isolation; discriminate. }
  split; [|exact Hconnect].
  rewrite init_sqls_cases.
  repeat apply Forall_app_2; [exact Hconnect | |].
  - repeat constructor.
    + rewrite !last_char_append; [reflexivity | discriminate |].
      destruct (schema self); discriminate.
    + rewrite !last_char_append; [reflexivity | discriminate |].
      destruct (schema self); discriminate.
  - destruct (create_index self); repeat constructor.
Qed.

(** X11.  Whatever the names are, [CREATE INDEX i1 ON t1 (f1);] is among the
    statements of [init_sqls] exactly when [create_index] is set, and it is
    then the last statement. *)
Theorem index_is_created_exactly_on_request (self : Schema) :
  (In "CREATE INDEX i1 ON t1 (f1);" (init_sqls self) ↔ create_index self = true)
  ∧ (last (init_sqls self) = Some "CREATE INDEX i1 ON t1 (f1);"
     ↔ create_index self = true).
Proof.
  rewrite init_sqls_cases. split; split.
  - destruct (create_index self); [reflexivity|]. intros Hin. exfalso.
    rewrite app_nil_r in Hin. apply in_app_iff in Hin as [Hin|Hin].
    + rewrite connect_sqls_cases in Hin.
      destruct (cluster_name self), (transaction_isolation self);
        cbn in Hin; intuition discriminate.
    + cbn in Hin. intuition discriminate.
  - intros ->. apply in_app_iff. right. cbn. tauto.
  - destruct (create_index self); [reflexivity|].
    rewrite app_nil_r, last_app. cbn. discriminate.
  - intros ->. rewrite app_assoc, last_snoc. reflexivity.
Qed.

(** X12.  [connect_sqls] depends on the schema name, the cluster name and
    the transaction isolation and on nothing else, and it tells them apart:
    two [Schema] objects yield the same statements exactly when they agree on
    all three. *)
Theorem connect_sqls_tells_settings_apart (a b : Schema) :
  connect_sqls a = connect_sqls b
  ↔ schema a = schema b
    ∧ cluster_name a = cluster_name b
    ∧ transaction_isolation a = transaction_isolation b.
Proof.
  rewrite !connect_sqls_cases. split.
  - destruct (cluster_name a) as [ca|], (transaction_isolation a) as [ta|],
      (cluster_name b) as [cb|], (transaction_isolation b) as [tb|];
      intros H; cbn [app] in H; try discriminate H;
      injection H; clear H; intros;
      repeat match goal with
        | H : String _ _ = String _ _ |- _ => try discriminate H
        | H : _ +:+ _ = _ +:+ _ |- _ =>
            first [ apply append_inj_l in H | (cbn in H; discriminate H) ]
        end;
      repeat match goal with
        | H : _ +:+ _ = _ +:+ _ |- _ => apply append_inj_r in H
        | H : TransactionIsolation_str _ = TransactionIsolation_str _ |- _ =>
            apply TransactionIsolation_str_inj in H
        end; subst; auto.
  - intros (-> & -> & ->). reflexivity.
Qed.

End SchemaRuns.

Section Enumerations.

(** X13.  The 16 members of [DataTypeCategory] have pairwise different
    values, so none is an alias of another: looking a member's value up
    gives that member back, a lookup that succeeds gives a member with the
    value asked for, and a value that no member has raises [ValueError]. *)
Theorem DataTypeCategory_values_identify_members :
  (∀ a b, DataTypeCategory_value a = DataTypeCategory_value b → a = b)
  ∧ (∀ c, DataTypeCategory_of_value (DataTypeCategory_value c) = Ok c)
  ∧ (∀ v c, DataTypeCategory_of_value v = Ok c → DataTypeCategory_value c = v)
  ∧ (∀ v, (∀ c, DataTypeCategory_value c ≠ v) →
          DataTypeCategory_of_value v = Raise ValueError)
  ∧ NoDup DataTypeCategory_members
  ∧ (∀ c, In c DataTypeCategory_members).
Proof.
  repeat split.
  - intros a b H. destruct a, b; (reflexivity || discriminate H).
  - intros c. destruct c; reflexivity.
  - intros v c H. unfold DataTypeCategory_of_value in H.
    destruct (find _ _) as [c'|] eqn:Hfind; [|discriminate].
    injection H as ->. apply find_some in Hfind as [_ Hv]. lia.
  - intros v Hnone. unfold DataTypeCategory_of_value.
    destruct (find _ _) as [c'|] eqn:Hfind; [|reflexivity].
    apply find_some in Hfind as [_ Hv]. exfalso. apply (Hnone c'). lia.
  - unfold DataTypeCategory_members.
    repeat (apply NoDup_cons; split;
            [intros Hin; apply list_elem_of_In in Hin; cbn in Hin;
             intuition discriminate|]).
    apply NoDup_nil. exact I.
  - intros c. destruct c; cbn; tauto.
Qed.

End Enumerations.

(** ** The scenarios of the spec, run on scripted collaborators *)

Section ScriptedFacts.
Import Scripted.

Lemma scripted_keeps_config : http_keeps_config collaborators.
Proof. intros req config [|[ans|ans|ans] w]; reflexivity. Qed.

End ScriptedFacts.

(** Scenario B: the region API answers [{"regionInfo": {"resolvable":
    false}}] twice and then [{"regionInfo": {"resolvable": true,
    "sqlAddress": "10.0.0.5:6875"}}]; the payload is returned and
    [10.0.0.5:6875] is probed. *)
Lemma scenario_B :
  wait_for_environmentd Scripted.collaborators 4300
    (Scripted.start
       [Scripted.CHttp (Responded (Scripted.ok Scripted.unresolvable));
        Scripted.CHttp (Responded (Scripted.ok Scripted.unresolvable));
        Scripted.CHttp (Responded (Scripted.ok (Scripted.resolvable_at "10.0.0.5:6875")));
        Scripted.CConnect Connected])
  = (Ok (Scripted.resolvable_at "10.0.0.5:6875"),
     mkState Scripted.org1 []
       [probe_event Scripted.org1 (Scripted.ok Scripted.unresolvable);
        probe_event Scripted.org1 (Scripted.ok Scripted.unresolvable);
        probe_event Scripted.org1 (Scripted.ok (Scripted.resolvable_at "10.0.0.5:6875"));
        EConnect "10.0.0.5" 6875 300 Connected]).
Proof.
  refine (proj1 (proj2
    (wait_for_environmentd_polls_then_probes Scripted.collaborators 4300
       Scripted.org1 _ []
       [Scripted.ok Scripted.unresolvable; Scripted.ok Scripted.unresolvable] _))
    [] (Scripted.ok (Scripted.resolvable_at "10.0.0.5:6875"))
    (Scripted.resolvable_at "10.0.0.5:6875") "10.0.0.5" "6875" 6875
    _ _ _ _ _ _ _ _).
  - repeat constructor.
  - cbn. lia.
  - reflexivity.
  - reflexivity.
  - eexists _, _. repeat split; reflexivity.
  - reflexivity.
  - reflexivity.
  - cbn. lia.
  - repeat (econstructor; [reflexivity|]). constructor.
Defined.

(** Scenario C: the PATCH is answered with HTTP 500; the operation raises
    [HTTPError] and the answers the resource store had ready are never asked
    for. *)
Lemma scenario_C :
  create_environment_assignment Scripted.collaborators None
    (Scripted.start
       [Scripted.CHttp (Responded (mkResponse 500 None));
        Scripted.CKubectl (Found (JObj ∅)); Scripted.CKubectl (Found (JObj ∅))])
  = (Raise HTTPError,
     mkState Scripted.org1
       [Scripted.CKubectl (Found (JObj ∅)); Scripted.CKubectl (Found (JObj ∅))]
       [EHttp (patch_request Scripted.org1 ∅) (Responded (mkResponse 500 None))]).
Proof.
  apply (create_stops_at_rejected_patch Scripted.collaborators None Scripted.org1
           _ [] (mkResponse 500 None) Scripted.org1 _);
    reflexivity.
Defined.

(** Scenario D: the DELETE is accepted, namespace and environment are gone,
    the environmentassignment is still there; the operation raises
    [AssertionError]. *)
Lemma scenario_D :
  (delete_environment_assignment Scripted.collaborators
     (Scripted.start
        [Scripted.CHttp (Responded (mkResponse 200 None));
         Scripted.CKubectl NotFound; Scripted.CKubectl NotFound;
         Scripted.CKubectl (Found (JObj ∅))])).1
  = Raise AssertionError.
Proof.
  refine (proj1 (proj2 (proj2
    (delete_asserts_three_absences Scripted.collaborators Scripted.org1 _ []
       [] (mkResponse 200 None) NotFound NotFound (Found (JObj ∅)) [] _ _ _ _))) _ _).
  - constructor.
  - cbn. lia.
  - reflexivity.
  - repeat (econstructor; [reflexivity|]). constructor.
  - intros a e Hin ->. apply list_elem_of_In in Hin. cbn in Hin.
    intuition discriminate.
  - exists (JObj ∅). do 2 apply list_elem_of_further. apply list_elem_of_here.
Defined.

(** Two tolerated failures, then a [ValueError], with attempts to spare: the
    [ValueError] comes out and the fourth outcome is never played. *)
Lemma retry_stops_at_value_error :
  retry (counted Scripted.playback) 5 [AssertionError]
    ([Raise AssertionError; Raise AssertionError; Raise ValueError; Ok 1], O)
  = (Raise ValueError, ([Ok 1], 3%nat)).
Proof.
  apply (retry_propagates_untolerated_at_once Scripted.playback 5 [AssertionError]
           [Raise AssertionError; Raise AssertionError; Raise ValueError; Ok 1]
           2 ValueError).
  - lia.
  - intros [|[|i]] Hi; [exists AssertionError; split;
                          [reflexivity | apply list_elem_of_here] .. | lia].
  - reflexivity.
  - intros Hin. apply list_elem_of_singleton in Hin. discriminate.
Defined.

(** An operation that raises [AssertionError] every time, under a budget of
    3: three invocations, then [RetryExhausted]. *)
Lemma retry_gives_up_after_three :
  retry (counted (lift (Raise AssertionError) : M unit unit)) 3 [AssertionError]
    (tt, O)
  = (Raise RetryExhausted, (tt, 3%nat)).
Proof.
  apply (retry_exhausted_after_budget (lift (Raise AssertionError) : M unit unit)
           3 [AssertionError] tt).
  intros s'. exists AssertionError. split; [reflexivity | apply list_elem_of_here].
Defined.

(** The DELETE is answered with HTTP 503 and then the client fails with a
    timeout of its own: the timeout comes out after the second DELETE. *)
Lemma delete_stops_at_timeout :
  delete_environment_assignment Scripted.collaborators
    (Scripted.start
       [Scripted.CHttp (Responded (mkResponse 503 None));
        Scripted.CHttp (Crashed (OtherError "Timeout"));
        Scripted.CHttp (Responded (mkResponse 200 None))])
  = (Raise (OtherError "Timeout"),
     mkState Scripted.org1 [Scripted.CHttp (Responded (mkResponse 200 None))]
       [delete_event Scripted.org1 (Responded (mkResponse 503 None));
        delete_event Scripted.org1 (Crashed (OtherError "Timeout"))]).
Proof.
  refine (proj2 (proj2
    (delete_retries_http_failures_only Scripted.collaborators Scripted.org1 _ []
       [Responded (mkResponse 503 None)] _)) (OtherError "Timeout") _ _ _ _).
  - repeat constructor.
  - cbn. lia.
  - discriminate.
  - repeat (econstructor; [reflexivity|]). constructor.
Defined.

(** Scenario A on a whole run: for organization ["org1"] and a pinned image
    the PATCH carries the image, the environment ["environment-org1-0"] is
    polled twice and the environmentassignment ["org1-0"] is fetched and
    returned. *)
Lemma creation_of_org1 :
  create_environment_assignment Scripted.collaborators (Some "environmentd:v1")
    (Scripted.start
       [Scripted.CHttp (Responded (mkResponse 200 None)); Scripted.CKubectl NotFound;
        Scripted.CKubectl (Found (JObj ∅));
        Scripted.CKubectl (Found (JObj {[ "kind" := JStr "EnvironmentAssignment" ]}))])
  = (Ok (JObj {[ "kind" := JStr "EnvironmentAssignment" ]}),
     mkState Scripted.org1 []
       [EHttp (mkRequest PATCH "http://region-api" "/api/region"
                 (Some {[ "environmentdImageRef" := JStr "environmentd:v1" ]}) None)
              (Responded (mkResponse 200 None));
        EKubectl (mkQuery "kind-env" None "environment" "environment-org1-0") NotFound;
        EKubectl (mkQuery "kind-env" None "environment" "environment-org1-0")
                 (Found (JObj ∅));
        EKubectl (mkQuery "kind-system" None "environmentassignment" "org1-0")
                 (Found (JObj {[ "kind" := JStr "EnvironmentAssignment" ]}))]).
Proof.
  refine (proj1 (proj2
    (create_patches_polls_fetches Scripted.collaborators (Some "environmentd:v1")
       Scripted.org1 _ [] (mkResponse 200 None) _))
    1%nat (JObj ∅) (JObj {[ "kind" := JStr "EnvironmentAssignment" ]}) [] _ _).
  - reflexivity.
  - lia.
  - repeat (econstructor; [reflexivity|]). constructor.
Defined.

(** On scripted collaborators, which leave the configuration alone, the
    configuration after each operation is the one before. *)
Lemma config_of_org1_is_kept :
  st_config (create_environment_assignment Scripted.collaborators None
               (Scripted.start Scripted.creation)).2 = Scripted.org1
  ∧ st_config (wait_for_environmentd Scripted.collaborators 4300
                 (Scripted.start Scripted.creation)).2 = Scripted.org1
  ∧ st_config (delete_environment_assignment Scripted.collaborators
                 (Scripted.start Scripted.creation)).2 = Scripted.org1.
Proof.
  apply (controller_never_writes_config Scripted.collaborators 4300 None
           (Scripted.start Scripted.creation)).
  exact scripted_keeps_config.
Defined.

(** A bare IPv6 address as [sqlAddress]: readiness is confirmed by the first
    probe, the address has two colons, and the operation ends with
    [ValueError] without probing connectivity. *)
Lemma bare_ipv6_address :
  wait_for_environmentd Scripted.collaborators 4300
    (Scripted.start
       [Scripted.CHttp (Responded (Scripted.ok (Scripted.resolvable_at "fe80::1")));
        Scripted.CConnect Connected])
  = (Raise ValueError,
     mkState Scripted.org1 [Scripted.CConnect Connected]
       [probe_event Scripted.org1 (Scripted.ok (Scripted.resolvable_at "fe80::1"))]).
Proof.
  refine (proj1
    (wait_for_environmentd_needs_host_colon_port Scripted.collaborators 4300
       Scripted.org1 _ [] [] (Scripted.ok (Scripted.resolvable_at "fe80::1"))
       (Scripted.resolvable_at "fe80::1") "fe80::1" _ _ _ _ _ _ _) _).
  - constructor.
  - cbn. lia.
  - reflexivity.
  - reflexivity.
  - eexists _, _. repeat split; reflexivity.
  - repeat (econstructor; [reflexivity|]). constructor.
  - left. cbn. lia.
Defined.

(** ** Further runs, by evaluation *)

(** 601 "not ready" answers are on offer: 600 probes are made, the operation
    ends with [RetryExhausted], and one answer is left over. *)
Example probes_run_out :
  let run :=
    wait_for_environmentd Scripted.collaborators 4300
      (Scripted.start
         (replicate 601 (Scripted.CHttp (Responded (Scripted.ok Scripted.unresolvable))))) in
  run.1 = Raise RetryExhausted
  ∧ length (st_trace run.2) = 600%nat
  ∧ length (st_world run.2) = 1%nat.
Proof. vm_compute. repeat split. Qed.

(** The region API refuses the DELETE eleven times if asked: ten DELETEs are
    made and no absence check. *)
Example deletes_run_out :
  let run :=
    delete_environment_assignment Scripted.collaborators
      (Scripted.start
         (replicate 11 (Scripted.CHttp (Responded (mkResponse 502 None)))
          ++ [Scripted.CKubectl NotFound])) in
  st_trace run.2
  = replicate 10 (delete_event Scripted.org1 (Responded (mkResponse 502 None)))
  ∧ queried (st_trace run.2) = [].
Proof. vm_compute. repeat split. Qed.

(** The environment resource never shows up: ten polls, no fetch of the
    environmentassignment. *)
Example polls_run_out :
  let run :=
    create_environment_assignment Scripted.collaborators None
      (Scripted.start
         (Scripted.CHttp (Responded (mkResponse 200 None))
          :: replicate 11 (Scripted.CKubectl NotFound))) in
  queried (st_trace run.2) = replicate 10 ("environment", "environment-org1-0")
  ∧ length (st_world run.2) = 1%nat.
Proof. vm_compute. repeat split. Qed.

(** The namespace is still there: the first check fails the operation and
    the other two are not made. *)
Example namespace_left_over :
  let run :=
    delete_environment_assignment Scripted.collaborators
      (Scripted.start
         [Scripted.CHttp (Responded (mkResponse 200 None));
          Scripted.CKubectl (Found (JObj ∅)); Scripted.CKubectl NotFound;
          Scripted.CKubectl NotFound]) in
  run.1 = Raise AssertionError
  ∧ queried (st_trace run.2) = [("namespace", "environment-org1-0")].
Proof. vm_compute. repeat split. Qed.

(** A port that is a service name: [ValueError], no connectivity probe. *)
Example named_port :
  let run :=
    wait_for_environmentd Scripted.collaborators 4300
      (Scripted.start
         [Scripted.CHttp
            (Responded (Scripted.ok (Scripted.resolvable_at "10.0.0.5:pgwire")));
          Scripted.CConnect Connected]) in
  run.1 = Raise ValueError ∧ st_world run.2 = [Scripted.CConnect Connected].
Proof. vm_compute. repeat split. Qed.

(** A payload whose [regionInfo] is a text is neither ready nor "not ready":
    the probe raises [AttributeError], which is not retried. *)
Example region_info_of_wrong_type :
  let run :=
    wait_for_environmentd Scripted.collaborators 4300
      (Scripted.start
         [Scripted.CHttp
            (Responded (Scripted.ok (JObj {[ "regionInfo" := JStr "pending" ]})));
          Scripted.CHttp
            (Responded (Scripted.ok (Scripted.resolvable_at "10.0.0.5:6875")))]) in
  run.1 = Raise AttributeError ∧ length (st_trace run.2) = 1%nat.
Proof. vm_compute. repeat split. Qed.

(** ** Further scenarios on scripted collaborators *)

(** A probe answered with [{"regionInfo": {"resolvable": false}}]. *)
Lemma probe_of_unresolvable :
  let run :=
    get_environment Scripted.collaborators
      (Scripted.start [Scripted.CHttp (Responded (Scripted.ok Scripted.unresolvable))]) in
  run.2 = mkState Scripted.org1 []
            [probe_event Scripted.org1 (Scripted.ok Scripted.unresolvable)]
  ∧ run.1 = Raise AssertionError.
Proof.
  pose proof (probe_sorts_responses Scripted.collaborators Scripted.org1
                [Scripted.CHttp (Responded (Scripted.ok Scripted.unresolvable))] []
                (Scripted.ok Scripted.unresolvable) Scripted.org1 []
                eq_refl eq_refl) as (Hlog & _ & Hnot & _).
  split; [exact Hlog | apply Hnot; reflexivity].
Defined.

(** The run of scenario B ends with the accepted probe of [10.0.0.5:6875]. *)
Lemma scenario_B_ends_connected :
  ∃ log base_url r address host port_text port,
    [probe_event Scripted.org1 (Scripted.ok Scripted.unresolvable);
     probe_event Scripted.org1 (Scripted.ok (Scripted.resolvable_at "10.0.0.5:6875"));
     EConnect "10.0.0.5" 6875 300 Connected]
    = log ++ [EHttp (mkRequest GET base_url "/api/region" None None) (Responded r);
              EConnect host port 300 Connected]
    ∧ body r = Some (Scripted.resolvable_at "10.0.0.5:6875")
    ∧ ready_with (Scripted.resolvable_at "10.0.0.5:6875") (JStr address)
    ∧ str_split ":" address = [host; port_text]
    ∧ str_to_int 4300 port_text = Some port.
Proof.
  apply (wait_for_environmentd_returns_after_connecting Scripted.collaborators 4300
           (Scripted.start
              [Scripted.CHttp (Responded (Scripted.ok Scripted.unresolvable));
               Scripted.CHttp
                 (Responded (Scripted.ok (Scripted.resolvable_at "10.0.0.5:6875")));
               Scripted.CConnect Connected])
           (Scripted.resolvable_at "10.0.0.5:6875")
           (mkState Scripted.org1 []
              [probe_event Scripted.org1 (Scripted.ok Scripted.unresolvable);
               probe_event Scripted.org1
                 (Scripted.ok (Scripted.resolvable_at "10.0.0.5:6875"));
               EConnect "10.0.0.5" 6875 300 Connected])).
  reflexivity.
Defined.

(** An [sqlAddress] that is the number 6875. *)
Lemma numeric_address :
  wait_for_environmentd Scripted.collaborators 4300
    (Scripted.start
       [Scripted.CHttp
          (Responded
             (Scripted.ok
                (JObj {[ "regionInfo" :=
                           JObj (<[ "resolvable" := JBool true ]>
                                   {[ "sqlAddress" := JInt 6875 ]}) ]})));
        Scripted.CConnect Connected])
  = (Raise AttributeError,
     mkState Scripted.org1 [Scripted.CConnect Connected]
       [probe_event Scripted.org1
          (Scripted.ok
             (JObj {[ "regionInfo" :=
                        JObj (<[ "resolvable" := JBool true ]>
                                {[ "sqlAddress" := JInt 6875 ]}) ]}))]).
Proof.
  refine (wait_for_environmentd_needs_a_text_address Scripted.collaborators 4300
            Scripted.org1 _ [] [] (Scripted.ok _) _ (JInt 6875) _ _ _ _ _ _ _ _).
  - constructor.
  - cbn. lia.
  - reflexivity.
  - reflexivity.
  - eexists _, _. repeat split; reflexivity.
  - discriminate.
  - repeat (econstructor; [reflexivity|]). constructor.
Defined.

(** The environment is not ready at the first probe and the region API
    answers the second with HTTP 503: [HTTPError], and the ready answer that
    would have come third is never asked for. *)
Lemma unavailable_while_waiting :
  wait_for_environmentd Scripted.collaborators 4300
    (Scripted.start
       [Scripted.CHttp (Responded (Scripted.ok Scripted.unresolvable));
        Scripted.CHttp (Responded (mkResponse 503 None));
        Scripted.CHttp (Responded (Scripted.ok (Scripted.resolvable_at "10.0.0.5:6875")))])
  = (Raise HTTPError,
     mkState Scripted.org1
       [Scripted.CHttp (Responded (Scripted.ok (Scripted.resolvable_at "10.0.0.5:6875")))]
       [probe_event Scripted.org1 (Scripted.ok Scripted.unresolvable);
        EHttp (probe_request Scripted.org1) (Responded (mkResponse 503 None))]).
Proof.
  refine (wait_for_environmentd_gives_up_on_http_failure Scripted.collaborators 4300
            Scripted.org1 _ [] [Scripted.ok Scripted.unresolvable]
            (Responded (mkResponse 503 None)) _ _ _ _ _).
  - repeat constructor.
  - cbn. lia.
  - reflexivity.
  - repeat (econstructor; [reflexivity|]). constructor.
Defined.

(** kubectl fails with a permission error at the second poll. *)
Lemma forbidden_while_polling :
  create_environment_assignment Scripted.collaborators None
    (Scripted.start
       [Scripted.CHttp (Responded (mkResponse 200 None)); Scripted.CKubectl NotFound;
        Scripted.CKubectl (KubectlFailed (OtherError "Forbidden"));
        Scripted.CKubectl (Found (JObj ∅))])
  = (Raise (OtherError "Forbidden"),
     mkState Scripted.org1 [Scripted.CKubectl (Found (JObj ∅))]
       [EHttp (patch_request Scripted.org1 ∅) (Responded (mkResponse 200 None));
        EKubectl (environment_query Scripted.org1) NotFound;
        EKubectl (environment_query Scripted.org1)
                 (KubectlFailed (OtherError "Forbidden"))]).
Proof.
  refine (create_gives_up_on_store_failure Scripted.collaborators None Scripted.org1
            _ [] (mkResponse 200 None) 1 (OtherError "Forbidden") _ _ _ _ _).
  - reflexivity.
  - lia.
  - discriminate.
  - repeat (econstructor; [reflexivity|]). constructor.
Defined.

(** [Schema()], with every argument at its default. *)
Example statements_of_the_default_schema :
  init_sqls (Schema_init None None None None None)
  = ["SET SCHEMA = scalability;";
     "DROP SCHEMA IF EXISTS scalability CASCADE;";
     "CREATE SCHEMA scalability;";
     "DROP TABLE IF EXISTS t1;";
     "CREATE TABLE t1 (f1 INTEGER DEFAULT 1);";
     "INSERT INTO t1 DEFAULT VALUES;";
     "CREATE INDEX i1 ON t1 (f1);"].
Proof. reflexivity. Qed.

(** A schema on a cluster, strictly serializable, without index. *)
Example statements_of_a_tuned_schema :
  init_sqls (Schema_init None (Some "bench") (Some false)
               (Some STRICT_SERIALIZABLE) (Some "c1"))
  = ["SET SCHEMA = bench;";
     "SET cluster_name = c1;";
     "SET transaction_isolation = 'strict serializable';";
     "DROP SCHEMA IF EXISTS bench CASCADE;";
     "CREATE SCHEMA bench;";
     "DROP TABLE IF EXISTS t1;";
     "CREATE TABLE t1 (f1 INTEGER DEFAULT 1);";
     "INSERT INTO t1 DEFAULT VALUES;"].
Proof. reflexivity. Qed.
